(** * agenda-spv: shift classification and calendar-event derivation

    A shallow embedding of [src/App.svelte] and [src/icalHelper.ts].

    - JavaScript strings are [string]s; [null]/[undefined] is [None].
    - A JavaScript [Date] is its time value, kept in local time, with
      [None] for the Invalid Date (a NaN time value).
    - A thrown [Error] is the left summand of the result.
    - An ExcelJS row is seen through the two things the code reads from
      it: the sparse array [row.values] and the fill of [row.getCell(c)]. *)

From Stdlib Require Import ZArith String Ascii List Bool Lia.
From Stdlib Require Import Sorted Permutation.
From Stdlib Require Import DecimalString DecimalPos.
Import ListNotations.

Local Open Scope string_scope.
Local Open Scope Z_scope.

(** ** Shift types ([src/types.d.ts]) *)

(** [export type ServiceType = "12H Nuit" | "12H Jour" | "24H"]. *)
Inductive ServiceType : Type :=
| DayTwelve
| NightTwelve
| TwentyFour.

(** The string each member of the union stands for. *)
Definition label (st : ServiceType) : string :=
  match st with
  | DayTwelve => "12H Jour"
  | NightTwelve => "12H Nuit"
  | TwentyFour => "24H"
  end.

Definition ServiceType_eqb (a b : ServiceType) : bool :=
  match a, b with
  | DayTwelve, DayTwelve | NightTwelve, NightTwelve
  | TwentyFour, TwentyFour => true
  | _, _ => false
  end.

(** ** ShiftClassifier ([determineServiceType], App.svelte 108-116) *)

(** [cellData: { color: string | null, color_theme: number | null }]. *)
Record cellData : Type := mkCellData {
  color : option string;
  color_theme : option Z
}.

(** [x === 'literal'] for a possibly-null string. *)
Definition str_is (x : option string) (lit : string) : bool :=
  match x with
  | Some s => String.eqb s lit
  | None => false
  end.

(** [x === n] for a possibly-null number. *)
Definition num_is (x : option Z) (n : Z) : bool :=
  match x with
  | Some z => Z.eqb z n
  | None => false
  end.

Definition determineServiceType (c : cellData) : ServiceType :=
  if str_is (color c) "FF00B0F0" then DayTwelve
  else if num_is (color_theme c) 9 then NightTwelve
  else TwentyFour.

(** ** JavaScript dates

    Time values follow ECMA-262 (Day, TimeWithinDay, DayFromYear,
    MakeDay, MakeTime, MakeDate).  They are kept in local time: the code
    only uses the local-time accessors, so a fixed zone offset cancels
    out.  The range limit of time values (TimeClip) and daylight-saving
    shifts are not modelled. *)

Definition msPerDay : Z := 86400000.
Definition msPerHour : Z := 3600000.
Definition msPerMinute : Z := 60000.
Definition msPerSecond : Z := 1000.

Definition Day (t : Z) : Z := t / msPerDay.
Definition TimeWithinDay (t : Z) : Z := t mod msPerDay.

Definition DayFromYear (y : Z) : Z :=
  365 * (y - 1970) + (y - 1969) / 4 - (y - 1901) / 100 + (y - 1601) / 400.

Definition InLeapYear (y : Z) : bool :=
  (y mod 4 =? 0) && (negb (y mod 100 =? 0) || (y mod 400 =? 0)).

(** The largest year whose first day is not after day number [d]: an
    estimate from the mean year length, corrected by at most one. *)
Definition YearFromDay (d : Z) : Z :=
  let y0 := 1970 + (400 * d) / 146097 in
  if DayFromYear (y0 + 1) <=? d then y0 + 1
  else if DayFromYear y0 <=? d then y0
  else y0 - 1.

Definition YearFromTime (t : Z) : Z := YearFromDay (Day t).

Definition DayWithinYear (t : Z) : Z := Day t - DayFromYear (YearFromTime t).

(** Number of days of the year before month [m] (0-based). *)
Definition DaysBeforeMonth (leap : bool) (m : Z) : Z :=
  let l := if leap then 1 else 0 in
  if m =? 0 then 0
  else if m =? 1 then 31
  else if m =? 2 then 59 + l
  else if m =? 3 then 90 + l
  else if m =? 4 then 120 + l
  else if m =? 5 then 151 + l
  else if m =? 6 then 181 + l
  else if m =? 7 then 212 + l
  else if m =? 8 then 243 + l
  else if m =? 9 then 273 + l
  else if m =? 10 then 304 + l
  else 334 + l.

Definition MonthFromTime (t : Z) : Z :=
  let dwy := DayWithinYear t in
  let l := if InLeapYear (YearFromTime t) then 1 else 0 in
  if dwy <? 31 then 0
  else if dwy <? 59 + l then 1
  else if dwy <? 90 + l then 2
  else if dwy <? 120 + l then 3
  else if dwy <? 151 + l then 4
  else if dwy <? 181 + l then 5
  else if dwy <? 212 + l then 6
  else if dwy <? 243 + l then 7
  else if dwy <? 273 + l then 8
  else if dwy <? 304 + l then 9
  else if dwy <? 334 + l then 10
  else 11.

Definition DateFromTime (t : Z) : Z :=
  DayWithinYear t
  - DaysBeforeMonth (InLeapYear (YearFromTime t)) (MonthFromTime t) + 1.

Definition HourFromTime (t : Z) : Z := (t / msPerHour) mod 24.
Definition MinFromTime (t : Z) : Z := (t / msPerMinute) mod 60.
Definition SecFromTime (t : Z) : Z := (t / msPerSecond) mod 60.
Definition msFromTime (t : Z) : Z := t mod msPerSecond.

Definition MakeTime (h m s ms : Z) : Z :=
  h * msPerHour + m * msPerMinute + s * msPerSecond + ms.

Definition MakeDay (year month date : Z) : Z :=
  let ym := year + month / 12 in
  let mn := month mod 12 in
  DayFromYear ym + DaysBeforeMonth (InLeapYear ym) mn + date - 1.

Definition MakeDate (day time : Z) : Z := day * msPerDay + time.

(** A [Date] object: [Some t] for the time value [t], [None] for the
    Invalid Date. *)
Definition JSDate : Type := option Z.

(** [new Date(year, month, day)]; a year from 0 to 99 means 1900 + year. *)
Definition Date_ymd (year month day : Z) : JSDate :=
  let yr := if (0 <=? year) && (year <=? 99) then 1900 + year else year in
  Some (MakeDate (MakeDay yr month day) 0).

(** [new Date(d)] for a Date [d], and [new Date(tv)] for a time value. *)
Definition Date_copy (d : JSDate) : JSDate := d.

Definition getFullYear (d : JSDate) : option Z := option_map YearFromTime d.
Definition getMonth (d : JSDate) : option Z := option_map MonthFromTime d.
Definition getDate (d : JSDate) : option Z := option_map DateFromTime d.
Definition getHours (d : JSDate) : option Z := option_map HourFromTime d.
Definition getMinutes (d : JSDate) : option Z := option_map MinFromTime d.

(** [d.setHours(h, m)]: seconds and milliseconds are kept. *)
Definition setHours (d : JSDate) (h m : Z) : JSDate :=
  match d with
  | Some t =>
      Some (MakeDate (Day t) (MakeTime h m (SecFromTime t) (msFromTime t)))
  | None => None
  end.

(** [d.setDate(dt)] where [dt] may be NaN. *)
Definition setDate (d : JSDate) (dt : option Z) : JSDate :=
  match d, dt with
  | Some t, Some n =>
      Some (MakeDate (MakeDay (YearFromTime t) (MonthFromTime t) n)
                     (TimeWithinDay t))
  | _, _ => None
  end.

(** [x + 1] on a number that may be NaN. *)
Definition plus1 (x : option Z) : option Z := option_map (fun n => n + 1) x.

(** ** Strings and numbers of the host *)

Definition code (c : ascii) : Z := Z.of_N (N_of_ascii c).

Definition is_digit (c : ascii) : bool := (48 <=? code c) && (code c <=? 57).

(** Decimal numeral of an integer, as [String(n)] prints it. *)
Definition Z_to_string (n : Z) : string := NilZero.string_of_int (Z.to_int n).

Fixpoint digits_value (acc : Z) (s : string) : option Z :=
  match s with
  | EmptyString => Some acc
  | String c r =>
      if is_digit c then digits_value (10 * acc + (code c - 48)) r else None
  end.

(** [Number(x)] on what the code passes to it: [undefined] and the
    numerals of a date breakdown.  A decimal numeral, possibly with a
    minus sign, is its value; anything else is taken as NaN ([None]). *)
Definition Number (x : option string) : option Z :=
  match x with
  | None => None
  | Some EmptyString => None
  | Some (String "-" (String c r)) => option_map Z.opp (digits_value 0 (String c r))
  | Some s => digits_value 0 s
  end.

(** [x + " 1"] where [x] may be [undefined]. *)
Definition concat_undef (x : option string) (suffix : string) : string :=
  match x with
  | Some s => s ++ suffix
  | None => "undefined" ++ suffix
  end.

(** ** Intl.DateTimeFormat("fr-FR", {day, month: "long", year}) *)

Record Part : Type := mkPart { type_ : string; value_ : string }.

Definition fr_month_name (m : Z) : string :=
  if m =? 0 then "janvier"
  else if m =? 1 then "février"
  else if m =? 2 then "mars"
  else if m =? 3 then "avril"
  else if m =? 4 then "mai"
  else if m =? 5 then "juin"
  else if m =? 6 then "juillet"
  else if m =? 7 then "août"
  else if m =? 8 then "septembre"
  else if m =? 9 then "octobre"
  else if m =? 10 then "novembre"
  else "décembre".

(** Exceptions the resolver can end with. *)
Inductive Exn : Type :=
| RangeError_InvalidTimeValue
    (* thrown by formatToParts on an Invalid Date (ECMA-402) *)
| Error_InvalidDateString (dateValue : string)
    (* "Format de date invalide dans la chaîne : " + dateValue *)
| Error_UnknownDateFormat
    (* "Format de date non reconnu : " + dateValue *)
| Error_UnknownServiceType (serviceType : string).
    (* "Type de service non reconnu : " + serviceType *)

(** [formatToParts(d)]: day, month name and year of [d] in French order;
    a RangeError on the Invalid Date. *)
Definition formatToParts (d : JSDate) : Exn + list Part :=
  match d with
  | None => inl RangeError_InvalidTimeValue
  | Some t =>
      inr [ mkPart "day" (Z_to_string (DateFromTime t));
            mkPart "literal" " ";
            mkPart "month" (fr_month_name (MonthFromTime t));
            mkPart "literal" " ";
            mkPart "year" (Z_to_string (YearFromTime t)) ]
  end.

(** [parts.find((part) => part.type === ty)?.value]. *)
Definition find_part_value (ty : string) (parts : list Part) : option string :=
  option_map value_ (find (fun part => String.eqb (type_ part) ty) parts).

(** ** ScheduleTimeResolver ([getEventTimes], icalHelper.ts 11-64) *)

(** The argument [dateValue]: a string, a Date, or anything else a
    caller outside the type checker may pass. *)
Inductive DateValue : Type :=
| DString (s : string)
| DDate (d : JSDate)
| DOther.

Record Window : Type := mkWindow { start : JSDate; end_ : JSDate }.

Section Resolver.

(** [Date.parse]: the host's parser of date strings, NaN being [None].
    Outside the ISO format its result is implementation-defined. *)
Variable Date_parse : string -> option Z.

(** Lines 15-39: the [Date] the argument stands for.  A string is
    parsed, broken down in French, and rebuilt from day, month and
    year. *)
Definition getEventTimes_date (dateValue : DateValue) : Exn + JSDate :=
  match dateValue with
  | DString s =>
      match formatToParts (Date_parse s) with
      | inl e => inl e
      | inr parts =>
          let day := Number (find_part_value "day" parts) in
          let month :=
            getMonth
              (Date_parse (concat_undef (find_part_value "month" parts) " 1")) in
          let year := Number (find_part_value "year" parts) in
          match day, month, year with
          | Some d, Some m, Some y => inr (Date_ymd y m d)
          | _, _, _ => inl (Error_InvalidDateString s)
          end
      end
  | DDate d => inr d
  | DOther => inl Error_UnknownDateFormat
  end.

(** Lines 41-63: the window of the shift on that date. *)
Definition getEventTimes_window (date : JSDate) (serviceType : string)
  : Exn + Window :=
  let start0 := Date_copy date in
  let end0 := Date_copy start0 in
  if String.eqb serviceType "12H Jour" then
    inr (mkWindow (setHours start0 7 30) (setHours end0 19 30))
  else if String.eqb serviceType "12H Nuit" then
    inr (mkWindow (setHours start0 19 30)
                  (setHours (setDate end0 (plus1 (getDate end0))) 7 30))
  else if String.eqb serviceType "24H" then
    inr (mkWindow (setHours start0 7 30)
                  (setHours (setDate end0 (plus1 (getDate end0))) 7 30))
  else inl (Error_UnknownServiceType serviceType).

Definition getEventTimes (dateValue : DateValue) (serviceType : string)
  : Exn + Window :=
  match getEventTimes_date dateValue with
  | inl e => inl e
  | inr date => getEventTimes_window date serviceType
  end.

(** ** CalendarEventBuilder ([createEvent], icalHelper.ts 71-96) *)

(** [EventData] of [types.d.ts]. *)
Record EventData : Type := mkEventData {
  date : string;
  equipe : string;
  serviceType : string
}.

Definition DateTuple : Type :=
  (option Z * option Z * option Z * option Z * option Z)%type.

Record ICalEvent : Type := mkICalEvent {
  title : string;
  ical_start : DateTuple;
  ical_end : DateTuple;
  description : string
}.

Definition tuple_of (d : JSDate) : DateTuple :=
  (getFullYear d, plus1 (getMonth d), getDate d, getHours d, getMinutes d).

Definition createEvent (e : EventData) : Exn + ICalEvent :=
  match getEventTimes (DString (date e)) (serviceType e) with
  | inl x => inl x
  | inr w =>
      inr (mkICalEvent
             ("Garde " ++ serviceType e ++ " - " ++ equipe e)
             (tuple_of (start w))
             (tuple_of (end_ w))
             ("Garde de " ++ serviceType e ++ " pour l'équipe " ++ equipe e))
  end.

End Resolver.

(** ** A host parser for running the resolver

    [Date.parse] is a parameter of the resolver.  To run it on concrete
    strings we use this reading of two shapes, [D month Y] and
    [month D] (the year then being 2001), in which a month is an English
    month name recognised by its first three letters, whatever follows
    them, as V8's legacy parser does.  Every other string is NaN. *)

Definition lower (c : ascii) : ascii :=
  if (65 <=? code c) && (code c <=? 90)
  then ascii_of_N (N_of_ascii c + 32) else c.

Fixpoint split_spaces_aux (cur : string) (s : string) : list string :=
  match s with
  | EmptyString => [cur]
  | String c r =>
      if Ascii.eqb c " " then cur :: split_spaces_aux EmptyString r
      else split_spaces_aux (cur ++ String c EmptyString) r
  end.

Definition split_spaces (s : string) : list string :=
  split_spaces_aux EmptyString s.

Definition month_keywords : list (string * Z) :=
  [("jan", 0); ("feb", 1); ("mar", 2); ("apr", 3); ("may", 4); ("jun", 5);
   ("jul", 6); ("aug", 7); ("sep", 8); ("oct", 9); ("nov", 10); ("dec", 11)].

Definition prefix3 (w : string) : string :=
  match w with
  | String a (String b (String c _)) =>
      String (lower a) (String (lower b) (String (lower c) EmptyString))
  | _ => EmptyString
  end.

Definition month_keyword (w : string) : option Z :=
  option_map snd
    (find (fun kw => String.eqb (fst kw) (prefix3 w)) month_keywords).

Definition natural (w : string) : option Z :=
  match w with
  | EmptyString => None
  | _ => digits_value 0 w
  end.

Definition sample_parse (s : string) : option Z :=
  match split_spaces s with
  | [a; b; c] =>
      match natural a, month_keyword b, natural c with
      | Some d, Some m, Some y => Some (MakeDate (MakeDay y m d) 0)
      | _, _, _ => None
      end
  | [a; b] =>
      match month_keyword a, natural b with
      | Some m, Some d => Some (MakeDate (MakeDay 2001 m d) 0)
      | _, _ => None
      end
  | _ => None
  end.

(** The local time [h]:[m] on the [k]-th day after the day of [t], with
    the seconds and milliseconds of [t]. *)
Definition on_day (t k h m : Z) : JSDate :=
  Some (MakeDate (Day t + k) (MakeTime h m (SecFromTime t) (msFromTime t))).

(** The three strings of the [switch] in [getEventTimes]. *)
Definition known_type (s : string) : bool :=
  String.eqb s "12H Jour" || String.eqb s "12H Nuit" || String.eqb s "24H".

(** Day, month and year as the string branch of [getEventTimes] rebuilds
    them from the French breakdown of the time value [t]. *)
Definition breakdown (Date_parse : string -> option Z) (t : Z)
  : option Z * option Z * option Z :=
  (Number (Some (Z_to_string (DateFromTime t))),
   getMonth (Date_parse (fr_month_name (MonthFromTime t) ++ " 1")),
   Number (Some (Z_to_string (YearFromTime t)))).

(** A [Date] that reads as hour [h], minute [m] on day number [day]. *)
Definition reads_as (x : JSDate) (day h m : Z) : Prop :=
  exists v, x = Some v /\ Day v = day /\ HourFromTime v = h /\ MinFromTime v = m.

(** The time value of a local calendar date and time of day. *)
Definition local_time (y mo d h mi : Z) : Z :=
  MakeDate (MakeDay y mo d) (MakeTime h mi 0 0).

(** ** Rows and cells of a worksheet (ExcelJS, as the code reads it) *)

(** A cell value.  [VObject] stands for the values that are objects (a
    Date, rich text, a formula, ...): always truthy, printed by their own
    [toString]. *)
Inductive CellValue : Type :=
| VString (s : string)
| VNumber (n : Z)
| VBoolean (b : bool)
| VObject (repr : string).

(** JavaScript truthiness of a cell value. *)
Definition truthy (v : CellValue) : bool :=
  match v with
  | VString s => negb (String.eqb s EmptyString)
  | VNumber n => negb (n =? 0)
  | VBoolean b => b
  | VObject _ => true
  end.

Definition toString (v : CellValue) : string :=
  match v with
  | VString s => s
  | VNumber n => Z_to_string n
  | VBoolean b => if b then "true" else "false"
  | VObject repr => repr
  end.

(** [cell.fill?.fgColor]: its [argb] and [theme], each possibly absent. *)
Record Fill : Type := mkFill { argb : option string; theme : option Z }.

(** [x || null] on a string and on a number. *)
Definition str_or_null (x : option string) : option string :=
  match x with
  | Some EmptyString => None
  | _ => x
  end.

Definition num_or_null (x : option Z) : option Z :=
  match x with
  | Some 0 => None
  | _ => x
  end.

(** A row: [values] is the sparse array [row.values], whose index is the
    column number (index 0 is never set; [None] is a hole, which is what
    an empty cell leaves); [fill c] is the fill of [row.getCell(c)]. *)
Record Row : Type := mkRow {
  values : list (option CellValue);
  fill : nat -> Fill
}.

(** [row.getCell(c).value], [null] for an empty cell. *)
Definition getCell_value (r : Row) (c : nat) : option CellValue :=
  match nth_error (values r) c with
  | Some (Some v) => Some v
  | _ => None
  end.

(** [row.hasValues]: what [eachRow] and [eachCell] test when empty rows
    are not included. *)
Definition hasValues (r : Row) : bool :=
  existsb (fun x => match x with Some _ => true | None => false end) (values r).

(** A worksheet: its rows (row [k] at index [k - 1]) and the number of
    its columns. *)
Record Worksheet : Type := mkWorksheet {
  rows : list Row;
  columnCount : nat
}.

Definition emptyRow : Row := mkRow [] (fun _ => mkFill None None).

(** [worksheet.getRow(k)], 1-based. *)
Definition getRow (ws : Worksheet) (k : nat) : Row :=
  nth (k - 1) (rows ws) emptyRow.

(** The rows [worksheet.eachRow] visits, in order. *)
Definition eachRow (ws : Worksheet) : list Row := filter hasValues (rows ws).

(** ** Arrays with holes *)

(** [a[i]], [undefined] on a hole or out of range. *)
Definition js_index {A : Type} (a : list (option A)) (i : nat) : option A :=
  match nth_error a i with
  | Some (Some x) => Some x
  | _ => None
  end.

(** [a.map((x, index) => f x index)]: holes stay holes. *)
Fixpoint js_mapi_from {A B : Type} (f : A -> nat -> B) (i : nat)
    (a : list (option A)) : list (option B) :=
  match a with
  | [] => []
  | x :: r => option_map (fun v => f v i) x :: js_mapi_from f (S i) r
  end.

Definition js_mapi {A B : Type} (f : A -> nat -> B) (a : list (option A))
  : list (option B) := js_mapi_from f 0 a.

(** [a.some(p)]: holes are skipped. *)
Definition js_some {A : Type} (p : A -> bool) (a : list (option A)) : bool :=
  existsb (fun x => match x with Some v => p v | None => false end) a.

(** [a.find(p)]: holes are visited as [undefined]; the result is the
    element found, [undefined] when it is a hole or when none is. *)
Fixpoint js_find {A : Type} (p : option A -> bool) (a : list (option A))
  : option A :=
  match a with
  | [] => None
  | x :: r => if p x then x else js_find p r
  end.

(** ** RowExtractor ([parseSheet], App.svelte 71-101) *)

Record ExtraCell : Type := mkExtraCell {
  value : string;
  cell_color : option string;
  cell_color_theme : option Z;
  cell_serviceType : ServiceType
}.

(** What [parseSheet] pushes: date, team and the extra cells. *)
Record SheetEvent : Type := mkSheetEvent {
  ev_date : string;
  ev_equipe : string;
  extraData : list (option ExtraCell)
}.

(** [value ? value.toString() : ''] *)
Definition coerce (v : CellValue) : string :=
  if truthy v then toString v else EmptyString.

(** A JavaScript string used as a condition. *)
Definition nonempty (s : string) : bool := negb (String.eqb s EmptyString).

Definition rowValues (r : Row) : list (option string) :=
  map (option_map coerce) (skipn 1 (values r)).

Definition extraCell_at (r : Row) (v : string) (index : nat) : ExtraCell :=
  let f := fill r (index + 4) in
  let color := str_or_null (argb f) in
  let theme := num_or_null (theme f) in
  mkExtraCell v color theme (determineServiceType (mkCellData color theme)).

(** The body of the [eachRow] callback: the event pushed, if any. *)
Definition parseSheet_row (r : Row) : option SheetEvent :=
  let rv := rowValues r in
  let date := js_index rv 1 in
  let equipe := js_index rv 2 in
  let extra := js_mapi (extraCell_at r) (skipn 3 rv) in
  match date, equipe with
  | Some d, Some e =>
      if nonempty d && nonempty e then Some (mkSheetEvent d e extra) else None
  | _, _ => None
  end.

Definition parseSheet (ws : Worksheet) : list SheetEvent :=
  fold_left
    (fun extractedEvents r =>
       match parseSheet_row r with
       | Some ev => (extractedEvents ++ [ev])%list
       | None => extractedEvents
       end)
    (eachRow ws) [].

(** The string the code works with for column [c] of a row: the coerced
    value, the empty string for an empty cell. *)
Definition column_string (r : Row) (c : nat) : string :=
  match getCell_value r c with
  | Some v => coerce v
  | None => EmptyString
  end.

Definition events_of_row (r : Row) : list SheetEvent :=
  match parseSheet_row r with
  | Some ev => [ev]
  | None => []
  end.

(** Sample rows: a weekday in column 1, the date in column 2, the team in
    column 3, names from column 4 on. *)
Definition sample_fill (c : nat) : Fill :=
  if Nat.eqb c 4 then mkFill (Some "FF00B0F0") None
  else if Nat.eqb c 6 then mkFill None (Some 9)
  else mkFill None None.

Definition sample_row : Row :=
  mkRow [None; Some (VString "lundi"); Some (VString "15 mars 2025");
         Some (VString "A"); Some (VString "Dupont"); None;
         Some (VString "Durand")]
        sample_fill.

(** The same row with the number 0 as its team. *)
Definition sample_row_team0 : Row :=
  mkRow [None; Some (VString "lundi"); Some (VString "15 mars 2025");
         Some (VNumber 0); Some (VString "Dupont")]
        sample_fill.

(** ** Name index, event filter and shift-type lookup (App.svelte) *)

Definition has_digit (s : string) : bool :=
  existsb is_digit (list_ascii_of_string s).

(** [new Set()] as the list of its elements in insertion order. *)
Definition Set_add (s : list string) (x : string) : list string :=
  if existsb (String.eqb x) s then s else (s ++ [x])%list.

(** [a === b] on two strings that may be [undefined]. *)
Definition opt_string_eqb (a b : option string) : bool :=
  match a, b with
  | Some x, Some y => String.eqb x y
  | None, None => true
  | _, _ => false
  end.

(** [x || fallback] on a string that may be [null]. *)
Definition str_or (x : option string) (fallback : string) : string :=
  match x with
  | Some s => if nonempty s then s else fallback
  | None => fallback
  end.

Section App.

(** [String.prototype.toUpperCase], [trim] and [localeCompare] of the
    host. *)
Variable toUpperCase : string -> string.
Variable trim : string -> string.
Variable localeCompare : string -> string -> Z.

(** [x.toUpperCase().trim()] *)
Definition normalize (x : string) : string := trim (toUpperCase x).

(** [array.sort((a, b) => a.localeCompare(b))], a stable sort. *)
Fixpoint sort_insert (x : string) (l : list string) : list string :=
  match l with
  | [] => [x]
  | y :: r =>
      if localeCompare x y <=? 0 then x :: l else y :: sort_insert x r
  end.

Definition sort (l : list string) : list string :=
  fold_right sort_insert [] l.

(** *** NameIndexer ([extractUniqueNames], lines 122-153) *)

(** [headerRow.values.every(cell => cell === null || cell === undefined)]:
    holes are skipped and a value that is there is neither. *)
Definition isRowEmpty (r : Row) : bool :=
  forallb (fun x => match x with Some _ => false | None => true end)
          (values r).

Definition headerRow (ws : Worksheet) : Row :=
  if isRowEmpty (getRow ws 1) then getRow ws 2 else getRow ws 1.

(** [header && header !== 'DESIDERATA'] *)
Definition header_kept (header : option CellValue) : bool :=
  match header with
  | Some v =>
      truthy v &&
      match v with
      | VString s => negb (String.eqb s "DESIDERATA")
      | _ => true
      end
  | None => false
  end.

(** The callback of [column.eachCell]: the string it adds, if any, for
    the cell of row [r] in column [c]. *)
Definition cell_name (r : Row) (c : nat) : option string :=
  match getCell_value r c with
  | Some v =>
      if truthy v then
        let cellColor := str_or_null (argb (fill r c)) in
        let cellTheme := num_or_null (theme (fill r c)) in
        let cellValue := toString v in
        let serviceType :=
          determineServiceType (mkCellData cellColor cellTheme) in
        if ServiceType_eqb serviceType TwentyFour
           && negb (has_digit cellValue)
           && nonempty (trim cellValue)
        then Some cellValue else None
      else None
  | None => None
  end.

(** The numbers of [worksheet.columns.slice(3)]. *)
Definition nameColumns (ws : Worksheet) : list nat :=
  seq 4 (columnCount ws - 3).

Definition uniqueNames (ws : Worksheet) : list string :=
  fold_left
    (fun names c =>
       if header_kept (getCell_value (headerRow ws) c) then
         fold_left
           (fun names' r =>
              match cell_name r c with
              | Some s => Set_add names' s
              | None => names'
              end)
           (eachRow ws) names
       else names)
    (nameColumns ws) [].

(** The value assigned to [names]. *)
Definition extractUniqueNames (ws : Worksheet) : list string :=
  sort (uniqueNames ws).

(** *** EventFilter ([filterEvents], lines 158-169) *)

Definition cell_matches (selectedName : string) (cellData : ExtraCell) : bool :=
  nonempty (value cellData)
  && String.eqb (normalize (value cellData)) (normalize selectedName).

(** The value assigned to [events]. *)
Definition filterEvents (selectedName : option string)
    (allEvents : list SheetEvent) : list SheetEvent :=
  match selectedName with
  | Some s =>
      if nonempty s then
        filter (fun event => js_some (cell_matches s) (extraData event))
               allEvents
      else []
  | None => []
  end.

(** *** [getServiceTypeForSelectedName], lines 176-181 *)

Definition getServiceTypeForSelectedName (selectedName : option string)
    (event : SheetEvent) : option ServiceType :=
  let matchingCell :=
    js_find
      (fun cell =>
         opt_string_eqb
           (option_map (fun c => normalize (value c)) cell)
           (option_map normalize selectedName))
      (extraData event) in
  match matchingCell with
  | Some c => Some (cell_serviceType c)
  | None => None
  end.

(** *** [generateICal], lines 201-207: the events handed to
    [downloadICal]. *)
Definition generateICal (selectedName : option string)
    (events : list SheetEvent) : list EventData :=
  map (fun event =>
         mkEventData (ev_date event) (ev_equipe event)
           (str_or (option_map label
                      (getServiceTypeForSelectedName selectedName event))
                   "Inconnu"))
      events.

End App.

(** ** ASCII versions of the host's string functions, for running the
    code on concrete ASCII strings *)

Definition upper (c : ascii) : ascii :=
  if (97 <=? code c) && (code c <=? 122)
  then ascii_of_N (N_of_ascii c - 32) else c.

Fixpoint ascii_toUpperCase (s : string) : string :=
  match s with
  | EmptyString => EmptyString
  | String c r => String (upper c) (ascii_toUpperCase r)
  end.

Definition is_space (c : ascii) : bool :=
  (code c =? 32) || ((9 <=? code c) && (code c <=? 13)).

Fixpoint trim_start (s : string) : string :=
  match s with
  | EmptyString => EmptyString
  | String c r => if is_space c then trim_start r else s
  end.

Fixpoint trim_end (s : string) : string :=
  match s with
  | EmptyString => EmptyString
  | String c r =>
      match trim_end r with
      | EmptyString => if is_space c then EmptyString else String c EmptyString
      | r' => String c r'
      end
  end.

Definition ascii_trim (s : string) : string := trim_end (trim_start s).

(** Comparison of strings byte by byte, as a number. *)
Definition byte_compare (a b : string) : Z :=
  match String.compare a b with
  | Lt => -1
  | Eq => 0
  | Gt => 1
  end.

(** A sample sheet: a header row, and a row whose cell under the header
    "Chef" holds the boolean false. *)
Definition sample_header : Row :=
  mkRow [None; Some (VString "Jour"); Some (VString "Date");
         Some (VString "Equipe"); Some (VString "Chef")]
        (fun _ => mkFill None None).

Definition sample_row_false : Row :=
  mkRow [None; Some (VString "lundi"); Some (VString "15 mars 2025");
         Some (VString "A"); Some (VBoolean false)]
        (fun _ => mkFill None None).

Definition sample_sheet : Worksheet :=
  mkWorksheet [sample_header; sample_row_false] 4.


(** ** The Gregorian calendar, for reading dates back *)

(** Number of days of month [m] (0-based). *)
Definition DaysInMonth (leap : bool) (m : Z) : Z :=
  if m =? 1 then (if leap then 29 else 28)
  else if (m =? 3) || (m =? 5) || (m =? 8) || (m =? 10) then 30
  else 31.

(** Year, 0-based month and day of the month that name a day. *)
Definition valid_ymd (y m d : Z) : Prop :=
  0 <= m <= 11 /\ 1 <= d <= DaysInMonth (InLeapYear y) m.

(** The calendar date after (year, month, day). *)
Definition next_ymd (y m d : Z) : Z * Z * Z :=
  if d <? DaysInMonth (InLeapYear y) m then (y, m, d + 1)
  else if m <? 11 then (y, m + 1, 1)
  else (y + 1, 0, 1).

(** The three calendar fields of a [Date], as its getters give them. *)
Definition ymd_of (x : JSDate) : option Z * option Z * option Z :=
  (getFullYear x, getMonth x, getDate x).

(** ** [downloadICal] (icalHelper.ts 102-118)

    [events.map((event) => createEvent(event))]: the list handed to
    [createEvents] of the [ics] library, or the exception of the first
    event whose [createEvent] throws.  What the library and the browser
    do with the list is outside the code. *)
Fixpoint downloadICal (Date_parse : string -> option Z)
    (events : list EventData) : Exn + list ICalEvent :=
  match events with
  | [] => inr []
  | event :: rest =>
      match createEvent Date_parse event with
      | inl x => inl x
      | inr ical =>
          match downloadICal Date_parse rest with
          | inl x => inl x
          | inr icalEvents => inr (ical :: icalEvents)
          end
      end
  end.

(** Hours at which the window of a shift type starts and ends, and
    whether it ends on the day after. *)
Definition start_hour (st : ServiceType) : Z :=
  match st with NightTwelve => 19 | _ => 7 end.

Definition end_hour (st : ServiceType) : Z :=
  match st with DayTwelve => 19 | _ => 7 end.

Definition ends_next_day (st : ServiceType) : bool :=
  match st with DayTwelve => false | _ => true end.

(** A date failure of the resolver on the string [s]. *)
Definition date_failure (s : string) (x : Exn) : Prop :=
  x = RangeError_InvalidTimeValue \/ x = Error_InvalidDateString s.

(** ** Sheets offered by [handleFile] (App.svelte 29-34) *)

(** [\w] and [\d] of a regular expression without the unicode flag. *)
Definition is_word (c : ascii) : bool :=
  is_digit c
  || ((65 <=? code c) && (code c <=? 90))
  || ((97 <=? code c) && (code c <=? 122))
  || (code c =? 95).

(** Four digits, and nothing else. *)
Definition is_year (y : string) : bool :=
  match y with
  | String a (String b (String c (String d EmptyString))) =>
      is_digit a && is_digit b && is_digit c && is_digit d
  | _ => false
  end.

(** [\d{4}] at the head of [s]: the four digits and what follows. *)
Definition four_digits_at (s : string) : option (string * string) :=
  match s with
  | String a (String b (String c (String d rest))) =>
      if is_digit a && is_digit b && is_digit c && is_digit d
      then Some (String a (String b (String c (String d EmptyString))), rest)
      else None
  | _ => None
  end.

(** [\b] after a digit: the end of the string or a character that is
    not a word character. *)
Definition starts_nonword (s : string) : bool :=
  match s with
  | EmptyString => true
  | String c _ => negb (is_word c)
  end.

(** [sheetName.match(/\b\d{4}\b/)]: the leftmost match, tried at each
    position in turn; [prev_word] tells whether the character before the
    position is a word character. *)
Fixpoint year_match_from (prev_word : bool) (s : string) : option string :=
  match s with
  | EmptyString => None
  | String c r =>
      match (if prev_word then None else four_digits_at s) with
      | Some (y, rest) =>
          if starts_nonword rest then Some y
          else year_match_from (is_word c) r
      | None => year_match_from (is_word c) r
      end
  end.

Definition year_match (sheetName : string) : option string :=
  year_match_from false sheetName.

(** [yearMatch && parseInt(yearMatch[0]) >= currentYear] *)
Definition sheet_kept (currentYear : Z) (sheetName : string) : bool :=
  match year_match sheetName with
  | Some y =>
      match digits_value 0 y with
      | Some n => currentYear <=? n
      | None => false
      end
  | None => false
  end.

(** The value assigned to [sheets], from the names of the worksheets. *)
Definition handleFile_sheets (currentYear : Z) (sheetNames : list string)
  : list string :=
  filter (sheet_kept currentYear) sheetNames.

(** Whether the last character of [pre] is a word character, [default]
    standing for the character before [pre]. *)
Fixpoint last_word (default : bool) (pre : string) : bool :=
  match pre with
  | EmptyString => default
  | String c r => last_word (is_word c) r
  end.

(** [y] is a group of four digits standing alone in [pre ++ y ++ post]:
    no word character just before it, none just after. *)
Definition standalone_year (pre y post : string) : Prop :=
  is_year y = true /\ last_word false pre = false /\
  starts_nonword post = true.

(** ** [formatDisplayDate] (App.svelte 188-196) *)

(** ECMA-262 WeekDay: 0 is Sunday. *)
Definition WeekDay (t : Z) : Z := (Day t + 4) mod 7.

Definition fr_weekday_name (w : Z) : string :=
  if w =? 0 then "dimanche"
  else if w =? 1 then "lundi"
  else if w =? 2 then "mardi"
  else if w =? 3 then "mercredi"
  else if w =? 4 then "jeudi"
  else if w =? 5 then "vendredi"
  else "samedi".

(** [Intl.DateTimeFormat('fr-FR', {weekday, day, month, year}).format]
    of [new Date(dateString)]: a RangeError on the Invalid Date. *)
Definition formatDisplayDate (Date_parse : string -> option Z)
    (dateString : string) : Exn + string :=
  match Date_parse dateString with
  | None => inl RangeError_InvalidTimeValue
  | Some t =>
      inr (fr_weekday_name (WeekDay t) ++ " "
           ++ Z_to_string (DateFromTime t) ++ " "
           ++ fr_month_name (MonthFromTime t) ++ " "
           ++ Z_to_string (YearFromTime t))
  end.

(** A sheet with a title in its first row and the headers in the
    second. *)
Definition sample_titled_sheet : Worksheet :=
  mkWorksheet
    [mkRow [None; Some (VString "Planning 2025")] (fun _ => mkFill None None);
     sample_header; sample_row]
    6.

(** * Properties *)

Lemma str_is_true (x : option string) (lit : string) :
  str_is x lit = true <-> x = Some lit.
Proof.
  destruct x as [s|]; simpl.
  - rewrite String.eqb_eq. split; congruence.
  - split; discriminate.
Qed.

Lemma num_is_true (x : option Z) (n : Z) :
  num_is x n = true <-> x = Some n.
Proof.
  destruct x as [z|]; simpl.
  - rewrite Z.eqb_eq. split; congruence.
  - split; discriminate.
Qed.

Lemma str_is_false (x : option string) (lit : string) :
  str_is x lit = false <-> x <> Some lit.
Proof.
  rewrite <- str_is_true. destruct (str_is x lit); split; congruence.
Qed.

Lemma num_is_false (x : option Z) (n : Z) :
  num_is x n = false <-> x <> Some n.
Proof.
  rewrite <- num_is_true. destruct (num_is x n); split; congruence.
Qed.

Lemma label_inj (a b : ServiceType) : label a = label b -> a = b.
Proof. destruct a, b; simpl; congruence. Qed.

Lemma label_nonempty (a : ServiceType) : label a <> EmptyString.
Proof. destruct a; discriminate. Qed.

(** C1. Classification is a total function of the pair (color, theme)
    and follows the rule order: the color FF00B0F0 gives '12H Jour'
    whatever the theme; any other color (or none) with theme 9 gives
    '12H Nuit'; everything else, both fields absent included, gives
    '24H'. *)
Theorem determineServiceType_rules (c : option string) (t : option Z) :
  (c = Some "FF00B0F0" ->
     determineServiceType (mkCellData c t) = DayTwelve) /\
  (c <> Some "FF00B0F0" -> t = Some 9 ->
     determineServiceType (mkCellData c t) = NightTwelve) /\
  (c <> Some "FF00B0F0" -> t <> Some 9 ->
     determineServiceType (mkCellData c t) = TwentyFour) /\
  determineServiceType (mkCellData None None) = TwentyFour /\
  (exists st, determineServiceType (mkCellData c t) = st /\
     (label st = "12H Jour" \/ label st = "12H Nuit" \/ label st = "24H")).
Proof.
  unfold determineServiceType; simpl.
  repeat split.
  - intros ->. reflexivity.
  - intros Hc ->. apply str_is_false in Hc. rewrite Hc. reflexivity.
  - intros Hc Ht. apply str_is_false in Hc. apply num_is_false in Ht.
    rewrite Hc, Ht. reflexivity.
  - eexists. split; [reflexivity|].
    destruct (str_is c _); [|destruct (num_is t 9)]; simpl; auto.
Qed.

Lemma determineServiceType_rules_witness :
  determineServiceType (mkCellData (Some "FF00B0F0") (Some 9)) = DayTwelve /\
  determineServiceType (mkCellData (Some "FFFF0000") (Some 9)) = NightTwelve /\
  determineServiceType (mkCellData (Some "FFFF0000") (Some 4)) = TwentyFour.
Proof.
  split; [|split].
  - apply (determineServiceType_rules (Some "FF00B0F0") (Some 9)).
    reflexivity.
  - apply (determineServiceType_rules (Some "FFFF0000") (Some 9));
      [discriminate | reflexivity].
  - apply (determineServiceType_rules (Some "FFFF0000") (Some 4));
      discriminate.
Defined.

(** ** Time values *)

Ltac unfold_time :=
  unfold on_day, MakeDate, MakeTime, Day, TimeWithinDay, HourFromTime,
    MinFromTime, SecFromTime, msFromTime,
    msPerDay, msPerHour, msPerMinute, msPerSecond in *.

Lemma MonthFromTime_range (t : Z) : 0 <= MonthFromTime t <= 11.
Proof.
  unfold MonthFromTime.
  repeat match goal with
         | |- context [if ?b then _ else _] => destruct b
         end; lia.
Qed.

(** Rebuilding the day number from the calendar fields of [t], with the
    day of the month moved by [k], moves the day number by [k]. *)
Lemma MakeDay_fields (t k : Z) :
  MakeDay (YearFromTime t) (MonthFromTime t) (DateFromTime t + k) = Day t + k.
Proof.
  pose proof (MonthFromTime_range t) as Hm.
  unfold MakeDay.
  rewrite (Z.div_small (MonthFromTime t) 12) by lia.
  rewrite (Z.mod_small (MonthFromTime t) 12) by lia.
  rewrite Z.add_0_r.
  unfold DateFromTime, DayWithinYear. lia.
Qed.

Lemma Day_MakeDate (d r : Z) :
  0 <= r < msPerDay -> Day (MakeDate d r) = d.
Proof.
  intros Hr. unfold Day, MakeDate.
  rewrite Z.add_comm, Z.div_add by (unfold msPerDay; lia).
  rewrite Z.div_small by exact Hr. lia.
Qed.

Lemma TimeWithinDay_range (t : Z) : 0 <= TimeWithinDay t < msPerDay.
Proof. unfold TimeWithinDay. apply Z.mod_pos_bound. reflexivity. Qed.

Lemma Sec_MakeDate (d t : Z) :
  SecFromTime (MakeDate d (TimeWithinDay t)) = SecFromTime t.
Proof. unfold_time. Z.div_mod_to_equations. lia. Qed.

Lemma ms_MakeDate (d t : Z) :
  msFromTime (MakeDate d (TimeWithinDay t)) = msFromTime t.
Proof. unfold_time. Z.div_mod_to_equations. lia. Qed.

Lemma Sec_range (t : Z) : 0 <= SecFromTime t < 60.
Proof. unfold SecFromTime. apply Z.mod_pos_bound. reflexivity. Qed.

Lemma ms_range (t : Z) : 0 <= msFromTime t < 1000.
Proof. unfold msFromTime, msPerSecond. apply Z.mod_pos_bound. reflexivity. Qed.

(** Reading back a time assembled by [MakeDate] and [MakeTime]. *)
Lemma MakeDate_fields (d h m s ms : Z) :
  0 <= h < 24 -> 0 <= m < 60 -> 0 <= s < 60 -> 0 <= ms < 1000 ->
  let v := MakeDate d (MakeTime h m s ms) in
  Day v = d /\ HourFromTime v = h /\ MinFromTime v = m /\
  SecFromTime v = s /\ msFromTime v = ms.
Proof.
  intros Hh Hm Hs Hms v. subst v. unfold_time.
  repeat split; Z.div_mod_to_equations; lia.
Qed.

(** [d.setDate(d.getDate() + 1); d.setHours(h, m)] *)
Lemma next_day_setHours (t h m : Z) :
  setHours (setDate (Some t) (plus1 (getDate (Some t)))) h m = on_day t 1 h m.
Proof.
  simpl. rewrite MakeDay_fields.
  rewrite Day_MakeDate by apply TimeWithinDay_range.
  rewrite Sec_MakeDate, ms_MakeDate. reflexivity.
Qed.

Lemma same_day_setHours (t h m : Z) :
  setHours (Some t) h m = on_day t 0 h m.
Proof. unfold setHours, on_day. rewrite Z.add_0_r. reflexivity. Qed.

(** The calendar fields are those of the Gregorian calendar: the year
    found is the one the day falls in, and the day of the month is in
    range. *)
Lemma YearFromDay_bounds (d : Z) :
  DayFromYear (YearFromDay d) <= d < DayFromYear (YearFromDay d + 1).
Proof.
  unfold YearFromDay.
  set (y0 := 1970 + 400 * d / 146097).
  assert (H1 : DayFromYear (y0 - 1) <= d).
  { subst y0. unfold DayFromYear. Z.div_mod_to_equations. lia. }
  assert (H2 : d < DayFromYear (y0 + 2)).
  { subst y0. unfold DayFromYear. Z.div_mod_to_equations. lia. }
  destruct (Z.leb_spec (DayFromYear (y0 + 1)) d) as [A|A].
  - split; [exact A|]. replace (y0 + 1 + 1) with (y0 + 2) by lia. exact H2.
  - destruct (Z.leb_spec (DayFromYear y0) d) as [B|B].
    + split; [exact B | exact A].
    + split; [exact H1|]. replace (y0 - 1 + 1) with y0 by lia. exact B.
Qed.

Lemma DayFromYear_step (y : Z) :
  DayFromYear (y + 1) - DayFromYear y = if InLeapYear y then 366 else 365.
Proof.
  unfold DayFromYear, InLeapYear.
  destruct (Z.eqb_spec (y mod 4) 0) as [A|A];
  destruct (Z.eqb_spec (y mod 100) 0) as [B|B];
  destruct (Z.eqb_spec (y mod 400) 0) as [C|C]; cbn [andb orb negb];
  replace (y + 1 - 1970) with (y - 1969) by lia;
  replace (y + 1 - 1969) with (y - 1968) by lia;
  replace (y + 1 - 1901) with (y - 1900) by lia;
  replace (y + 1 - 1601) with (y - 1600) by lia;
  Z.div_mod_to_equations; lia.
Qed.

Lemma DayWithinYear_range (t : Z) :
  0 <= DayWithinYear t < (if InLeapYear (YearFromTime t) then 366 else 365).
Proof.
  unfold DayWithinYear, YearFromTime.
  pose proof (YearFromDay_bounds (Day t)) as H.
  pose proof (DayFromYear_step (YearFromDay (Day t))) as S.
  lia.
Qed.

Lemma DateFromTime_range (t : Z) : 1 <= DateFromTime t <= 31.
Proof.
  pose proof (DayWithinYear_range t) as H.
  unfold DateFromTime, MonthFromTime.
  generalize dependent (DayWithinYear t). intros dwy H.
  destruct (InLeapYear (YearFromTime t));
  repeat match goal with
         | |- context [?a <? ?b] => destruct (Z.ltb_spec a b)
         end; vm_compute (DaysBeforeMonth _ _); lia.
Qed.

(** ** ScheduleTimeResolver *)

Lemma on_day_reads_as (t k h m : Z) :
  0 <= h < 24 -> 0 <= m < 60 -> reads_as (on_day t k h m) (Day t + k) h m.
Proof.
  intros Hh Hm. eexists. split; [reflexivity|].
  pose proof (MakeDate_fields (Day t + k) h m _ _ Hh Hm
                (Sec_range t) (ms_range t)) as H.
  simpl in H. tauto.
Qed.

Lemma getEventTimes_window_valid (t : Z) :
  getEventTimes_window (Some t) "12H Jour"
    = inr (mkWindow (on_day t 0 7 30) (on_day t 0 19 30)) /\
  getEventTimes_window (Some t) "12H Nuit"
    = inr (mkWindow (on_day t 0 19 30) (on_day t 1 7 30)) /\
  getEventTimes_window (Some t) "24H"
    = inr (mkWindow (on_day t 0 7 30) (on_day t 1 7 30)).
Proof.
  unfold getEventTimes_window, Date_copy.
  change (String.eqb "12H Jour" "12H Jour") with true.
  change (String.eqb "12H Nuit" "12H Jour") with false.
  change (String.eqb "12H Nuit" "12H Nuit") with true.
  change (String.eqb "24H" "12H Jour") with false.
  change (String.eqb "24H" "12H Nuit") with false.
  change (String.eqb "24H" "24H") with true.
  cbv iota.
  rewrite !next_day_setHours, !same_day_setHours. auto.
Qed.

(** Midnight has no seconds and no milliseconds. *)
Lemma midnight_sec_ms (d : Z) :
  SecFromTime (MakeDate d 0) = 0 /\ msFromTime (MakeDate d 0) = 0.
Proof. unfold_time. split; Z.div_mod_to_equations; lia. Qed.

(** A date rebuilt from year, month and day is at midnight, so the
    windows computed from it fall on the exact minute. *)
Lemma Date_ymd_midnight (y m d t k h mi : Z) :
  Date_ymd y m d = Some t ->
  on_day t k h mi = Some (MakeDate (Day t + k) (MakeTime h mi 0 0)).
Proof.
  unfold Date_ymd. generalize (MakeDay (if (0 <=? y) && (y <=? 99)
                                        then 1900 + y else y) m d).
  intros day H. injection H as <-.
  destruct (midnight_sec_ms day) as [Hs Hms].
  unfold on_day. rewrite Hs, Hms. reflexivity.
Qed.



(** The string branch, once the host has parsed the string. *)
Lemma getEventTimes_date_string (P : string -> option Z) (s : string) (t : Z) :
  P s = Some t ->
  getEventTimes_date P (DString s) =
    match breakdown P t with
    | (Some d, Some m, Some y) => inr (Date_ymd y m d)
    | _ => inl (Error_InvalidDateString s)
    end.
Proof.
  intros Hs. unfold getEventTimes_date, breakdown. rewrite Hs.
  reflexivity.
Qed.

Lemma getEventTimes_date_unparsed (P : string -> option Z) (s : string) :
  P s = None ->
  getEventTimes_date P (DString s) = inl RangeError_InvalidTimeValue.
Proof.
  intros Hs. unfold getEventTimes_date. rewrite Hs. reflexivity.
Qed.

(** C3. Given "15 mars 2025", on a host whose parser reads that string
    as a time of 15 March 2025 and reads "mars 1" as a date in March, the
    resolver rebuilds the date from its French day/month/year breakdown
    and returns 2025-03-15T07:30 to 2025-03-15T19:30 for '12H Jour',
    2025-03-15T19:30 to 2025-03-16T07:30 for '12H Nuit' and
    2025-03-15T07:30 to 2025-03-16T07:30 for '24H'. *)
Theorem getEventTimes_15_mars_2025 (P : string -> option Z) (t : Z) :
  P "15 mars 2025" = Some t ->
  YearFromTime t = 2025 -> MonthFromTime t = 2 -> DateFromTime t = 15 ->
  getMonth (P "mars 1") = Some 2 ->
  getEventTimes P (DString "15 mars 2025") "12H Jour"
    = inr (mkWindow (Some (local_time 2025 2 15 7 30))
                    (Some (local_time 2025 2 15 19 30))) /\
  getEventTimes P (DString "15 mars 2025") "12H Nuit"
    = inr (mkWindow (Some (local_time 2025 2 15 19 30))
                    (Some (local_time 2025 2 16 7 30))) /\
  getEventTimes P (DString "15 mars 2025") "24H"
    = inr (mkWindow (Some (local_time 2025 2 15 7 30))
                    (Some (local_time 2025 2 16 7 30))) /\
  tuple_of (Some (local_time 2025 2 15 7 30))
    = (Some 2025, Some 3, Some 15, Some 7, Some 30) /\
  tuple_of (Some (local_time 2025 2 15 19 30))
    = (Some 2025, Some 3, Some 15, Some 19, Some 30) /\
  tuple_of (Some (local_time 2025 2 16 7 30))
    = (Some 2025, Some 3, Some 16, Some 7, Some 30).
Proof.
  intros Hs Hy Hm Hd Hmars.
  assert (Hdate : getEventTimes_date P (DString "15 mars 2025")
                  = inr (Date_ymd 2025 2 15)).
  { rewrite (getEventTimes_date_string P _ t Hs).
    unfold breakdown. rewrite Hy, Hm, Hd.
    change (fr_month_name 2 ++ " 1") with "mars 1". rewrite Hmars.
    reflexivity. }
  unfold getEventTimes. rewrite Hdate.
  repeat split; vm_compute; reflexivity.
Qed.

Lemma getEventTimes_15_mars_2025_witness :
  getEventTimes sample_parse (DString "15 mars 2025") "12H Nuit"
    = inr (mkWindow (Some (local_time 2025 2 15 19 30))
                    (Some (local_time 2025 2 16 7 30))).
Proof.
  apply (getEventTimes_15_mars_2025 sample_parse 1741996800000);
    vm_compute; reflexivity.
Defined.

Lemma getEventTimes_window_cases (d : JSDate) (st : string) :
  (known_type st = true /\ exists w, getEventTimes_window d st = inr w) \/
  (known_type st = false /\
   getEventTimes_window d st = inl (Error_UnknownServiceType st)).
Proof.
  unfold getEventTimes_window, known_type.
  destruct (String.eqb st "12H Jour"); [left; eauto|].
  destruct (String.eqb st "12H Nuit"); [left; eauto|].
  destruct (String.eqb st "24H"); [left; eauto|].
  right. auto.
Qed.

Lemma getEventTimes_date_cases (P : string -> option Z) (s : string) :
  (P s = None /\
   getEventTimes_date P (DString s) = inl RangeError_InvalidTimeValue) \/
  (exists t d m y, P s = Some t /\ breakdown P t = (d, m, y) /\
     ((d = None \/ m = None \/ y = None) /\
      getEventTimes_date P (DString s) = inl (Error_InvalidDateString s)
      \/
      exists d' m' y', d = Some d' /\ m = Some m' /\ y = Some y' /\
        getEventTimes_date P (DString s) = inr (Date_ymd y' m' d'))).
Proof.
  destruct (P s) as [t|] eqn:Hs.
  - right. rewrite (getEventTimes_date_string P s t Hs).
    destruct (breakdown P t) as [[d m] y] eqn:Hb.
    exists t, d, m, y. split; [reflexivity|]. split; [exact Hb|].
    destruct d as [d'|]; [|left; auto].
    destruct m as [m'|]; [|left; auto].
    destruct y as [y'|]; [|left; auto].
    right. exists d', m', y'. auto.
  - left. split; [reflexivity|]. apply getEventTimes_date_unparsed, Hs.
Qed.




(** ** RowExtractor *)

Lemma nth_error_skipn {A : Type} (n i : nat) (l : list A) :
  nth_error (skipn n l) i = nth_error l (n + i).
Proof.
  revert l. induction n as [|n IH]; intros l; simpl.
  - reflexivity.
  - destruct l as [|x l]; simpl.
    + destruct i; reflexivity.
    + apply IH.
Qed.

Lemma nth_error_js_mapi_from {A B : Type} (f : A -> nat -> B)
    (k i : nat) (a : list (option A)) :
  nth_error (js_mapi_from f k a) i
  = option_map (option_map (fun v => f v (k + i)%nat)) (nth_error a i).
Proof.
  revert k i. induction a as [|x a IH]; intros k i; simpl.
  - destruct i; reflexivity.
  - destruct i as [|i]; simpl.
    + rewrite Nat.add_0_r. reflexivity.
    + rewrite IH. rewrite Nat.add_succ_r. reflexivity.
Qed.

Lemma js_index_rowValues (r : Row) (i : nat) :
  js_index (rowValues r) i = option_map coerce (getCell_value r (S i)).
Proof.
  unfold js_index, rowValues, getCell_value.
  rewrite nth_error_map, nth_error_skipn.
  change (1 + i)%nat with (S i).
  destruct (nth_error (values r) (S i)) as [[v|]|]; reflexivity.
Qed.

Lemma js_index_extra (r : Row) (i : nat) :
  js_index (js_mapi (extraCell_at r) (skipn 3 (rowValues r))) i
  = option_map (fun v => extraCell_at r (coerce v) i)
               (getCell_value r (i + 4)).
Proof.
  unfold js_index, js_mapi. rewrite nth_error_js_mapi_from.
  rewrite nth_error_skipn. unfold rowValues.
  rewrite nth_error_map, nth_error_skipn. unfold getCell_value.
  replace (1 + (3 + i))%nat with (i + 4)%nat by lia.
  destruct (nth_error (values r) (i + 4)) as [[v|]|]; reflexivity.
Qed.

Lemma column_string_Some (r : Row) (c : nat) (s : string) :
  option_map coerce (getCell_value r c) = Some s -> column_string r c = s.
Proof.
  unfold column_string. destruct (getCell_value r c); simpl; congruence.
Qed.

Lemma nonempty_true (s : string) : nonempty s = true <-> s <> EmptyString.
Proof.
  unfold nonempty. rewrite negb_true_iff.
  destruct (String.eqb_spec s EmptyString); split; congruence.
Qed.

(** Where the fields of a pushed event come from. *)
Lemma parseSheet_row_fields (r : Row) (ev : SheetEvent) :
  parseSheet_row r = Some ev ->
  option_map coerce (getCell_value r 2) = Some (ev_date ev) /\
  option_map coerce (getCell_value r 3) = Some (ev_equipe ev) /\
  ev_date ev <> EmptyString /\ ev_equipe ev <> EmptyString /\
  forall i, js_index (extraData ev) i
            = option_map (fun v => extraCell_at r (coerce v) i)
                         (getCell_value r (i + 4)).
Proof.
  unfold parseSheet_row. rewrite !js_index_rowValues.
  destruct (option_map coerce (getCell_value r 2)) as [d|]; [|discriminate].
  destruct (option_map coerce (getCell_value r 3)) as [e|]; [|discriminate].
  destruct (nonempty d) eqn:Hd; [|discriminate].
  destruct (nonempty e) eqn:He; [|discriminate].
  simpl. intros [= <-]. simpl.
  apply nonempty_true in Hd. apply nonempty_true in He.
  repeat split; auto. intros i. apply js_index_extra.
Qed.

Lemma parseSheet_row_qualifies (r : Row) :
  (exists ev, parseSheet_row r = Some ev) <->
  column_string r 2 <> EmptyString /\ column_string r 3 <> EmptyString.
Proof.
  split.
  - intros [ev H]. apply parseSheet_row_fields in H.
    destruct H as (Hd & He & Nd & Ne & _).
    rewrite (column_string_Some _ _ _ Hd), (column_string_Some _ _ _ He).
    auto.
  - intros [Hd He]. unfold parseSheet_row. rewrite !js_index_rowValues.
    unfold column_string in Hd, He.
    destruct (getCell_value r 2) as [d|]; [|congruence].
    destruct (getCell_value r 3) as [e|]; [|congruence].
    simpl. apply nonempty_true in Hd. apply nonempty_true in He.
    rewrite Hd, He. simpl. eauto.
Qed.

(** C5, as the code has it.  The index of [row.values] is the column
    number and the code drops index 0 before reading positions 1 and 2:
    the date of a pushed event is the coerced value of column 2, its team
    that of column 3, and its [i]-th extra cell is made of the value and
    the fill of column [i + 4]; column 1 is not read. *)
Theorem parseSheet_row_columns (r : Row) (ev : SheetEvent) :
  parseSheet_row r = Some ev ->
  ev_date ev = column_string r 2 /\
  ev_equipe ev = column_string r 3 /\
  (forall i, js_index (extraData ev) i
             = option_map (fun v => extraCell_at r (coerce v) i)
                          (getCell_value r (i + 4))) /\
  (forall v1, parseSheet_row (mkRow (match values r with
                                     | x0 :: _ :: rest => x0 :: v1 :: rest
                                     | other => other
                                     end) (fill r))
              = Some ev).
Proof.
  intros H. pose proof (parseSheet_row_fields r ev H) as (Hd & He & _ & _ & Hx).
  repeat split.
  - symmetry. apply column_string_Some, Hd.
  - symmetry. apply column_string_Some, He.
  - exact Hx.
  - intros v1. rewrite <- H. destruct r as [vs f]. simpl.
    destruct vs as [|x0 [|x1 rest]]; reflexivity.
Qed.

Lemma parseSheet_row_columns_witness :
  exists ev, parseSheet_row sample_row = Some ev /\
             ev_date ev = column_string sample_row 2.
Proof.
  eexists. split; [reflexivity|].
  apply (parseSheet_row_columns sample_row). reflexivity.
Defined.

(** C5 does not hold as stated: in the sample row the date of the event
    is the value of column 2, not that of column 1, and its team is the
    value of column 3, not that of column 2. *)
Lemma parseSheet_row_not_first_column :
  exists ev, parseSheet_row sample_row = Some ev /\
    column_string sample_row 1 = "lundi" /\
    column_string sample_row 2 = "15 mars 2025" /\
    ev_date ev <> column_string sample_row 1 /\
    ev_equipe ev <> column_string sample_row 2.
Proof.
  eexists. split; [reflexivity|]. simpl.
  repeat split; discriminate.
Qed.

Lemma parseSheet_fold (l : list Row) (acc : list SheetEvent) :
  fold_left
    (fun extractedEvents r =>
       match parseSheet_row r with
       | Some ev => (extractedEvents ++ [ev])%list
       | None => extractedEvents
       end) l acc
  = (acc ++ flat_map events_of_row l)%list.
Proof.
  revert acc. induction l as [|r l IH]; intros acc; simpl.
  - rewrite app_nil_r. reflexivity.
  - rewrite IH. unfold events_of_row at 2.
    destruct (parseSheet_row r); [rewrite <- app_assoc|]; reflexivity.
Qed.

Lemma getCell_value_no_values (r : Row) (c : nat) :
  hasValues r = false -> getCell_value r c = None.
Proof.
  unfold hasValues, getCell_value. intros H.
  destruct (nth_error (values r) c) as [[v|]|] eqn:E; try reflexivity.
  apply nth_error_In in E.
  assert (existsb (fun x : option CellValue =>
                     match x with Some _ => true | None => false end)
                  (values r) = true) as H'.
  { apply existsb_exists. exists (Some v). auto. }
  congruence.
Qed.

Lemma parseSheet_row_empty (r : Row) :
  (forall c, getCell_value r c = None) -> parseSheet_row r = None.
Proof.
  intros H. destruct (parseSheet_row r) as [ev|] eqn:E; [|reflexivity].
  assert (Hq : exists ev, parseSheet_row r = Some ev) by eauto.
  apply parseSheet_row_qualifies in Hq. destruct Hq as [Hd _].
  unfold column_string in Hd. rewrite H in Hd. congruence.
Qed.

Lemma flat_map_events_filter (l : list Row) :
  flat_map events_of_row (filter hasValues l) = flat_map events_of_row l.
Proof.
  induction l as [|r l IH]; simpl; [reflexivity|].
  destruct (hasValues r) eqn:Hv; simpl.
  - rewrite IH. reflexivity.
  - rewrite IH. unfold events_of_row at 2.
    rewrite parseSheet_row_empty; [reflexivity|].
    intros c. apply getCell_value_no_values, Hv.
Qed.

(** C6, as the code has it.  A value is coerced with
    [value ? value.toString() : '']: a truthy value becomes its display
    string, an empty cell and the falsy values (0, false, the empty
    string) become the empty string.  A row yields an event exactly when
    the coerced date and team are both non-empty; the events are, in row
    order, one per qualifying row, each with its extra cells in column
    order; other rows are skipped; a row with no value yields nothing. *)
Theorem parseSheet_qualifying_rows (ws : Worksheet) :
  parseSheet ws = flat_map events_of_row (rows ws) /\
  (forall r, (exists ev, events_of_row r = [ev]) <->
             column_string r 2 <> EmptyString /\ column_string r 3 <> EmptyString) /\
  (forall r, ~ (column_string r 2 <> EmptyString /\ column_string r 3 <> EmptyString) ->
             events_of_row r = []) /\
  (forall r ev i, events_of_row r = [ev] ->
     js_index (extraData ev) i
     = option_map (fun v => extraCell_at r (coerce v) i)
                  (getCell_value r (i + 4))) /\
  (forall r, (forall c, getCell_value r c = None) -> events_of_row r = []) /\
  (forall r c, column_string r c =
     match getCell_value r c with
     | Some v => if truthy v then toString v else EmptyString
     | None => EmptyString
     end).
Proof.
  split; [|split; [|split; [|split; [|split]]]].
  - unfold parseSheet, eachRow. rewrite parseSheet_fold. simpl.
    apply flat_map_events_filter.
  - intros r. rewrite <- parseSheet_row_qualifies. unfold events_of_row.
    destruct (parseSheet_row r) as [ev|]; split.
    + eauto.
    + eauto.
    + intros [ev H]. discriminate.
    + intros [ev H]. discriminate.
  - intros r H. unfold events_of_row.
    destruct (parseSheet_row r) as [ev|] eqn:E; [|reflexivity].
    exfalso. apply H. apply parseSheet_row_qualifies. eauto.
  - intros r ev i. unfold events_of_row.
    destruct (parseSheet_row r) as [ev'|] eqn:E; [|discriminate].
    intros [= ->]. apply (parseSheet_row_fields r ev E).
  - intros r H. unfold events_of_row. rewrite parseSheet_row_empty; auto.
  - intros r c. reflexivity.
Qed.

Lemma parseSheet_qualifying_rows_witness :
  exists ev, events_of_row sample_row = [ev].
Proof.
  apply (parseSheet_qualifying_rows (mkWorksheet [sample_row] 7)).
  split; discriminate.
Defined.

(** C6 does not hold as stated: the number 0 is a present value and its
    display string "0" is not empty, yet it is coerced to the empty
    string, and a row with a date and the team 0 yields no event. *)
Lemma parseSheet_skips_team_zero :
  getCell_value sample_row_team0 2 = Some (VString "15 mars 2025") /\
  getCell_value sample_row_team0 3 = Some (VNumber 0) /\
  toString (VNumber 0) = "0" /\
  column_string sample_row_team0 3 = EmptyString /\
  parseSheet (mkWorksheet [sample_row_team0] 5) = [].
Proof. repeat split. Qed.

(** ** EventFilter and shift-type lookup *)

Lemma js_some_exists {A : Type} (p : A -> bool) (a : list (option A)) :
  js_some p a = true <-> exists x, In (Some x) a /\ p x = true.
Proof.
  unfold js_some. rewrite existsb_exists. split.
  - intros [[x|] [Hin Hp]]; [eauto | discriminate].
  - intros [x [Hin Hp]]. exists (Some x). auto.
Qed.

Lemma opt_string_eqb_Some (a : option string) (y : string) :
  opt_string_eqb a (Some y) = true <-> a = Some y.
Proof.
  destruct a as [x|]; simpl.
  - rewrite String.eqb_eq. split; congruence.
  - split; discriminate.
Qed.

Section AppProperties.

Variable toUpperCase : string -> string.
Variable trim : string -> string.

Lemma cell_matches_spec (s : string) (c : ExtraCell) :
  cell_matches toUpperCase trim s c = true <->
  value c <> EmptyString /\
  normalize toUpperCase trim (value c) = normalize toUpperCase trim s.
Proof.
  unfold cell_matches.
  rewrite andb_true_iff, nonempty_true, String.eqb_eq. tauto.
Qed.

Lemma filterEvents_In (s : string) (allEvents : list SheetEvent)
    (ev : SheetEvent) :
  s <> EmptyString ->
  (In ev (filterEvents toUpperCase trim (Some s) allEvents) <->
   In ev allEvents /\
   exists c, In (Some c) (extraData ev) /\ value c <> EmptyString /\
     normalize toUpperCase trim (value c) = normalize toUpperCase trim s).
Proof.
  intros Hs. unfold filterEvents.
  apply nonempty_true in Hs. rewrite Hs.
  rewrite filter_In, js_some_exists.
  split; intros [Hin [c [Hc Hm]]]; (split; [exact Hin|]); exists c;
    (split; [exact Hc|]); apply cell_matches_spec; exact Hm.
Qed.


(** *** The first matching cell *)

Lemma js_find_first (s : string) (pre post : list (option ExtraCell))
    (c : ExtraCell) :
  normalize toUpperCase trim (value c) = normalize toUpperCase trim s ->
  (forall c', In (Some c') pre ->
     normalize toUpperCase trim (value c')
       <> normalize toUpperCase trim s) ->
  js_find
    (fun cell =>
       opt_string_eqb
         (option_map (fun c => normalize toUpperCase trim (value c)) cell)
         (option_map (normalize toUpperCase trim) (Some s)))
    (pre ++ Some c :: post)%list
  = Some c.
Proof.
  intros Hc Hpre. induction pre as [|x pre IH]; simpl.
  - rewrite Hc, String.eqb_refl. reflexivity.
  - destruct x as [c'|]; simpl.
    + destruct (String.eqb_spec
                  (normalize toUpperCase trim (value c'))
                  (normalize toUpperCase trim s)) as [E|E].
      * exfalso. apply (Hpre c'); [left; reflexivity | exact E].
      * apply IH. intros c'' Hin. apply Hpre. right. exact Hin.
    + apply IH. intros c'' Hin. apply Hpre. right. exact Hin.
Qed.

Lemma js_find_none (s : string) (a : list (option ExtraCell)) :
  (forall c', In (Some c') a ->
     normalize toUpperCase trim (value c')
       <> normalize toUpperCase trim s) ->
  js_find
    (fun cell =>
       opt_string_eqb
         (option_map (fun c => normalize toUpperCase trim (value c)) cell)
         (option_map (normalize toUpperCase trim) (Some s)))
    a
  = None.
Proof.
  intros Ha. induction a as [|x a IH]; simpl; [reflexivity|].
  destruct x as [c'|]; simpl.
  - destruct (String.eqb_spec
                (normalize toUpperCase trim (value c'))
                (normalize toUpperCase trim s)) as [E|E].
    + exfalso. apply (Ha c'); [left; reflexivity | exact E].
    + apply IH. intros c'' Hin. apply Ha. right. exact Hin.
  - apply IH. intros c'' Hin. apply Ha. right. exact Hin.
Qed.

Lemma js_find_unselected (a : list (option ExtraCell)) :
  js_find
    (fun cell =>
       opt_string_eqb
         (option_map (fun c => normalize toUpperCase trim (value c)) cell)
         (option_map (normalize toUpperCase trim) None))
    a
  = None.
Proof.
  induction a as [|x a IH]; simpl; [reflexivity|].
  destruct x as [c'|]; simpl; [exact IH | reflexivity].
Qed.

(** Every list of cells either has a first matching cell or none. *)
Lemma first_match_or_none (s : string) (a : list (option ExtraCell)) :
  (exists pre c post, a = (pre ++ Some c :: post)%list /\
     normalize toUpperCase trim (value c) = normalize toUpperCase trim s /\
     forall c', In (Some c') pre ->
       normalize toUpperCase trim (value c')
         <> normalize toUpperCase trim s) \/
  (forall c', In (Some c') a ->
     normalize toUpperCase trim (value c')
       <> normalize toUpperCase trim s).
Proof.
  induction a as [|x a IH].
  - right. intros c' [].
  - destruct x as [c|].
    + destruct (String.eqb_spec
                  (normalize toUpperCase trim (value c))
                  (normalize toUpperCase trim s)) as [E|E].
      * left. exists [], c, a. repeat split; auto; intros c' [].
      * destruct IH as [(pre & c0 & post & -> & Hc0 & Hpre) | Hnone].
        -- left. exists (Some c :: pre), c0, post. repeat split; auto.
           intros c' [[= <-] | Hin]; auto.
        -- right. intros c' [[= <-] | Hin]; auto.
    + destruct IH as [(pre & c0 & post & -> & Hc0 & Hpre) | Hnone].
      * left. exists (None :: pre), c0, post. repeat split; auto.
        intros c' [Hd | Hin]; [discriminate | auto].
      * right. intros c' [Hd | Hin]; [discriminate | auto].
Qed.


Lemma lookup_of_filtered (s : string) (allEvents : list SheetEvent)
    (ev : SheetEvent) :
  s <> EmptyString ->
  In ev (filterEvents toUpperCase trim (Some s) allEvents) ->
  exists st,
    getServiceTypeForSelectedName toUpperCase trim (Some s) ev = Some st.
Proof.
  intros Hs Hin. apply (filterEvents_In s allEvents ev Hs) in Hin.
  destruct Hin as (_ & c & Hc & _ & Hm).
  destruct (first_match_or_none s (extraData ev))
    as [(pre & c0 & post & E & Hc0 & Hpre) | Hnone].
  - exists (cell_serviceType c0).
    unfold getServiceTypeForSelectedName. rewrite E.
    rewrite (js_find_first s pre post c0 Hc0 Hpre). reflexivity.
  - exfalso. exact (Hnone c Hc Hm).
Qed.

Lemma known_type_label (st : ServiceType) : known_type (label st) = true.
Proof. destruct st; reflexivity. Qed.

Lemma str_or_label (st : ServiceType) (fallback : string) :
  str_or (Some (label st)) fallback = label st.
Proof. destruct st; reflexivity. Qed.

(** C10. For a non-empty selected name, every event the filter keeps
    has a shift type under the lookup; the 'Inconnu' label of
    [generateICal] is then never used, and every event handed on to the
    calendar builder carries one of the three known shift types. *)
Theorem filtered_events_have_shift_type
    (s : string) (allEvents : list SheetEvent) :
  s <> EmptyString ->
  (forall ev, In ev (filterEvents toUpperCase trim (Some s) allEvents) ->
     exists st,
       getServiceTypeForSelectedName toUpperCase trim (Some s) ev
         = Some st /\
       str_or (option_map label
                 (getServiceTypeForSelectedName toUpperCase trim
                    (Some s) ev)) "Inconnu"
         = label st) /\
  (forall e,
     In e (generateICal toUpperCase trim (Some s)
             (filterEvents toUpperCase trim (Some s) allEvents)) ->
     serviceType e <> "Inconnu" /\ known_type (serviceType e) = true).
Proof.
  intros Hs. split.
  - intros ev Hin.
    destruct (lookup_of_filtered s allEvents ev Hs Hin) as [st Hst].
    exists st. split; [exact Hst|]. rewrite Hst. cbn [option_map].
    apply str_or_label.
  - intros e Hin. unfold generateICal in Hin. apply in_map_iff in Hin.
    destruct Hin as (ev & <- & Hev).
    destruct (lookup_of_filtered s allEvents ev Hs Hev) as [st Hst].
    cbn [serviceType]. rewrite Hst. cbn [option_map].
    rewrite str_or_label.
    split; [destruct st; discriminate | apply known_type_label].
Qed.

End AppProperties.

Lemma getServiceTypeForSelectedName_first_match_example :
  getServiceTypeForSelectedName ascii_toUpperCase ascii_trim
    (Some " durand")
    (mkSheetEvent "15 mars 2025" "A"
       [Some (mkExtraCell "Dupont" None None TwentyFour); None;
        Some (mkExtraCell "DURAND " None (Some 9) NightTwelve);
        Some (mkExtraCell "Durand" None None TwentyFour)])
  = Some NightTwelve.
Proof. reflexivity. Qed.


Lemma filtered_events_have_shift_type_witness :
  exists st,
    getServiceTypeForSelectedName ascii_toUpperCase ascii_trim
      (Some "dupont")
      (mkSheetEvent "15 mars 2025" "A"
         [Some (mkExtraCell "Dupont " (Some "FF00B0F0") None DayTwelve)])
    = Some st.
Proof.
  destruct (filtered_events_have_shift_type ascii_toUpperCase ascii_trim
              "dupont"
              [mkSheetEvent "15 mars 2025" "A"
                 [Some (mkExtraCell "Dupont " (Some "FF00B0F0") None
                          DayTwelve)]])
    as (H & _); [discriminate|].
  destruct (H (mkSheetEvent "15 mars 2025" "A"
                 [Some (mkExtraCell "Dupont " (Some "FF00B0F0") None
                          DayTwelve)]))
    as (st & Hst & _); [left; reflexivity|].
  exists st. exact Hst.
Defined.


(** ** NameIndexer *)

Lemma Set_add_In (l : list string) (y x : string) :
  In x (Set_add l y) <-> In x l \/ x = y.
Proof.
  unfold Set_add. destruct (existsb (String.eqb y) l) eqn:E.
  - split; [auto|]. intros [H | ->]; [exact H|].
    apply existsb_exists in E. destruct E as [z [Hz Hyz]].
    apply String.eqb_eq in Hyz. subst z. exact Hz.
  - rewrite in_app_iff. simpl. intuition congruence.
Qed.

Lemma Set_add_NoDup (l : list string) (y : string) :
  NoDup l -> NoDup (Set_add l y).
Proof.
  intros Hl. unfold Set_add. destruct (existsb (String.eqb y) l) eqn:E.
  - exact Hl.
  - apply NoDup_app; [exact Hl | repeat constructor; intros [] |].
    intros x Hx [Hxy | []]. subst x.
    assert (existsb (String.eqb y) l = true) as E'.
    { apply existsb_exists. exists y. split; [exact Hx|].
      apply String.eqb_refl. }
    congruence.
Qed.

Section NameIndex.

Variable trim : string -> string.
Variable localeCompare : string -> string -> Z.

Lemma column_fold_In (c : nat) (l : list Row) (acc : list string)
    (x : string) :
  In x (fold_left
          (fun names' r =>
             match cell_name trim r c with
             | Some s => Set_add names' s
             | None => names'
             end) l acc)
  <-> In x acc \/ exists r, In r l /\ cell_name trim r c = Some x.
Proof.
  revert acc. induction l as [|r l IH]; intros acc; simpl.
  - split; [auto|]. intros [H | (r & [] & _)]. exact H.
  - rewrite IH. destruct (cell_name trim r c) as [s|] eqn:E.
    + rewrite Set_add_In. split.
      * intros [[H | ->] | (r' & Hr' & H')]; eauto 6.
      * intros [H | (r' & [<- | Hr'] & H')]; eauto 6.
        left. right. congruence.
    + split.
      * intros [H | (r' & Hr' & H')]; eauto 6.
      * intros [H | (r' & [<- | Hr'] & H')]; eauto 6. congruence.
Qed.

Lemma column_fold_NoDup (c : nat) (l : list Row) (acc : list string) :
  NoDup acc ->
  NoDup (fold_left
           (fun names' r =>
              match cell_name trim r c with
              | Some s => Set_add names' s
              | None => names'
              end) l acc).
Proof.
  revert acc. induction l as [|r l IH]; intros acc Hacc; simpl.
  - exact Hacc.
  - apply IH. destruct (cell_name trim r c); [apply Set_add_NoDup|];
      exact Hacc.
Qed.

Lemma columns_fold_In (hdr : Row) (rs : list Row) (cols : list nat)
    (acc : list string) (x : string) :
  In x (fold_left
          (fun names c =>
             if header_kept (getCell_value hdr c) then
               fold_left
                 (fun names' r =>
                    match cell_name trim r c with
                    | Some s => Set_add names' s
                    | None => names'
                    end) rs names
             else names) cols acc)
  <-> In x acc \/
      exists c r, In c cols /\ header_kept (getCell_value hdr c) = true /\
                  In r rs /\ cell_name trim r c = Some x.
Proof.
  revert acc. induction cols as [|c cols IH]; intros acc; simpl.
  - split; [auto|]. intros [H | (c & r & [] & _)]. exact H.
  - rewrite IH. destruct (header_kept (getCell_value hdr c)) eqn:Hk.
    + rewrite column_fold_In. split.
      * intros [[H | (r & Hr & Hn)] | (c' & r & Hc' & Hk' & Hr & Hn)].
        -- auto.
        -- right. exists c, r. auto.
        -- right. exists c', r. auto.
      * intros [H | (c' & r & [<- | Hc'] & Hk' & Hr & Hn)].
        -- auto.
        -- left. right. eauto.
        -- right. exists c', r. auto.
    + split.
      * intros [H | (c' & r & Hc' & Hk' & Hr & Hn)]; [auto|].
        right. exists c', r. auto.
      * intros [H | (c' & r & [<- | Hc'] & Hk' & Hr & Hn)].
        -- auto.
        -- congruence.
        -- right. exists c', r. auto.
Qed.

Lemma columns_fold_NoDup (hdr : Row) (rs : list Row) (cols : list nat)
    (acc : list string) :
  NoDup acc ->
  NoDup (fold_left
           (fun names c =>
              if header_kept (getCell_value hdr c) then
                fold_left
                  (fun names' r =>
                     match cell_name trim r c with
                     | Some s => Set_add names' s
                     | None => names'
                     end) rs names
              else names) cols acc).
Proof.
  revert acc. induction cols as [|c cols IH]; intros acc Hacc; simpl.
  - exact Hacc.
  - apply IH. destruct (header_kept (getCell_value hdr c));
      [apply column_fold_NoDup|]; exact Hacc.
Qed.

Lemma sort_insert_Permutation (x : string) (l : list string) :
  Permutation (sort_insert localeCompare x l) (x :: l).
Proof.
  induction l as [|y l IH]; simpl.
  - apply Permutation_refl.
  - destruct (localeCompare x y <=? 0).
    + apply Permutation_refl.
    + apply perm_trans with (y :: x :: l).
      * apply perm_skip, IH.
      * apply perm_swap.
Qed.

Lemma sort_Permutation (l : list string) :
  Permutation (sort localeCompare l) l.
Proof.
  induction l as [|x l IH]; simpl.
  - apply perm_nil.
  - apply perm_trans with (x :: sort localeCompare l).
    + apply sort_insert_Permutation.
    + apply perm_skip, IH.
Qed.

Section Ordered.

Hypothesis localeCompare_total :
  forall a b, 0 < localeCompare a b -> localeCompare b a <= 0.

Lemma sort_insert_HdRel (x a : string) (l : list string) :
  localeCompare a x <= 0 ->
  HdRel (fun u v => localeCompare u v <= 0) a l ->
  HdRel (fun u v => localeCompare u v <= 0) a
        (sort_insert localeCompare x l).
Proof.
  intros Hax Hl. destruct l as [|y l]; simpl.
  - constructor. exact Hax.
  - destruct (localeCompare x y <=? 0).
    + constructor. exact Hax.
    + constructor. inversion Hl. assumption.
Qed.

Lemma sort_insert_Sorted (x : string) (l : list string) :
  Sorted (fun u v => localeCompare u v <= 0) l ->
  Sorted (fun u v => localeCompare u v <= 0)
         (sort_insert localeCompare x l).
Proof.
  induction l as [|y l IH]; intros Hl; simpl.
  - repeat constructor.
  - destruct (Z.leb_spec (localeCompare x y) 0) as [Hle | Hgt].
    + constructor; [exact Hl | constructor; exact Hle].
    + inversion Hl as [|? ? Hs Hh]; subst.
      constructor.
      * apply IH, Hs.
      * apply sort_insert_HdRel; [|exact Hh].
        apply localeCompare_total. exact Hgt.
Qed.

Lemma sort_Sorted (l : list string) :
  Sorted (fun u v => localeCompare u v <= 0) (sort localeCompare l).
Proof.
  induction l as [|x l IH]; simpl.
  - constructor.
  - apply sort_insert_Sorted, IH.
Qed.

End Ordered.

End NameIndex.

Lemma cell_name_spec (trim : string -> string) (r : Row) (c : nat)
    (s : string) :
  cell_name trim r c = Some s <->
  exists v, getCell_value r c = Some v /\ truthy v = true /\
    determineServiceType
      (mkCellData (str_or_null (argb (fill r c)))
                  (num_or_null (theme (fill r c)))) = TwentyFour /\
    toString v = s /\ has_digit s = false /\ trim s <> EmptyString.
Proof.
  unfold cell_name. destruct (getCell_value r c) as [v|].
  - destruct (truthy v) eqn:Ht.
    + destruct (determineServiceType _) eqn:Hst; simpl.
      * split; [discriminate|]. intros (v' & _ & _ & H & _). discriminate.
      * split; [discriminate|]. intros (v' & _ & _ & H & _). discriminate.
      * destruct (has_digit (toString v)) eqn:Hd; simpl.
        -- split; [discriminate|].
           intros (v' & [= <-] & _ & _ & <- & Hd' & _). congruence.
        -- destruct (nonempty (trim (toString v))) eqn:Hn.
           ++ apply nonempty_true in Hn. split.
              ** intros [= <-]. exists v. auto 10.
              ** intros (v' & [= <-] & _ & _ & <- & _). reflexivity.
           ++ split; [discriminate|].
              intros (v' & [= <-] & _ & _ & <- & _ & Hn').
              apply nonempty_true in Hn'. congruence.
    + split; [discriminate|]. intros (v' & [= <-] & Ht' & _). congruence.
  - split; [discriminate|]. intros (v' & H & _). discriminate.
Qed.

Lemma nameColumns_In (ws : Worksheet) (c : nat) :
  In c (nameColumns ws) <-> (4 <= c <= columnCount ws)%nat.
Proof. unfold nameColumns. rewrite in_seq. lia. Qed.

Lemma eachRow_named (trim : string -> string) (ws : Worksheet) (r : Row)
    (c : nat) (s : string) :
  cell_name trim r c = Some s ->
  (In r (eachRow ws) <-> In r (rows ws)).
Proof.
  intros Hn. unfold eachRow. rewrite filter_In.
  split; [tauto|]. intros Hr. split; [exact Hr|].
  destruct (hasValues r) eqn:Hv; [reflexivity|].
  apply (getCell_value_no_values r c) in Hv.
  unfold cell_name in Hn. rewrite Hv in Hn. discriminate.
Qed.


Lemma byte_compare_total (a b : string) :
  0 < byte_compare a b -> byte_compare b a <= 0.
Proof.
  unfold byte_compare. rewrite (String.compare_antisym a b).
  destruct (String.compare b a); simpl; lia.
Qed.




(** * Further properties *)

(** ** Calendar fields of rebuilt dates *)

Lemma DayFromYear_lt (a b : Z) : a < b -> DayFromYear a < DayFromYear b.
Proof. intros H. unfold DayFromYear. Z.div_mod_to_equations. lia. Qed.

Lemma YearFromDay_unique (y d : Z) :
  DayFromYear y <= d < DayFromYear (y + 1) -> YearFromDay d = y.
Proof.
  intros H. pose proof (YearFromDay_bounds d) as B.
  destruct (Z.lt_trichotomy (YearFromDay d) y) as [L | [E | G]].
  - assert (DayFromYear (YearFromDay d + 1) <= DayFromYear y).
    { destruct (Z.eq_dec (YearFromDay d + 1) y) as [-> | N]; [lia|].
      apply Z.lt_le_incl, DayFromYear_lt. lia. }
    lia.
  - exact E.
  - assert (DayFromYear (y + 1) <= DayFromYear (YearFromDay d)).
    { destruct (Z.eq_dec (y + 1) (YearFromDay d)) as [<- | N]; [lia|].
      apply Z.lt_le_incl, DayFromYear_lt. lia. }
    lia.
Qed.

Lemma DaysBeforeMonth_bounds (leap : bool) (m d : Z) :
  0 <= m <= 11 -> 1 <= d <= DaysInMonth leap m ->
  0 <= DaysBeforeMonth leap m + d - 1 < (if leap then 366 else 365).
Proof.
  intros Hm Hd.
  assert (m = 0 \/ m = 1 \/ m = 2 \/ m = 3 \/ m = 4 \/ m = 5 \/ m = 6 \/
          m = 7 \/ m = 8 \/ m = 9 \/ m = 10 \/ m = 11) as C by lia.
  destruct leap;
    repeat (destruct C as [-> | C]; [vm_compute (DaysInMonth _ _) in Hd; vm_compute (DaysBeforeMonth _ _); lia|]);
    subst m; vm_compute (DaysInMonth _ _) in Hd; vm_compute (DaysBeforeMonth _ _); lia.
Qed.

(** Reading back the fields of a day built by [MakeDay]. *)
Lemma fields_of_MakeDay (y m d t : Z) :
  valid_ymd y m d -> Day t = MakeDay y m d ->
  YearFromTime t = y /\ MonthFromTime t = m /\ DateFromTime t = d.
Proof.
  intros [Hm Hd] Ht.
  pose proof (DaysBeforeMonth_bounds (InLeapYear y) m d Hm Hd) as B.
  pose proof (DayFromYear_step y) as S.
  assert (Hday : Day t = DayFromYear y + (DaysBeforeMonth (InLeapYear y) m + d - 1)).
  { rewrite Ht. unfold MakeDay.
    rewrite (Z.div_small m 12), (Z.mod_small m 12) by lia.
    rewrite Z.add_0_r. lia. }
  assert (Hy : YearFromTime t = y).
  { unfold YearFromTime. apply YearFromDay_unique. lia. }
  assert (Hw : DayWithinYear t = DaysBeforeMonth (InLeapYear y) m + d - 1).
  { unfold DayWithinYear. rewrite Hy. lia. }
  assert (Hmo : MonthFromTime t = m).
  { unfold MonthFromTime. rewrite Hw, Hy. clear - Hm Hd.
    assert (m = 0 \/ m = 1 \/ m = 2 \/ m = 3 \/ m = 4 \/ m = 5 \/ m = 6 \/
            m = 7 \/ m = 8 \/ m = 9 \/ m = 10 \/ m = 11) as C by lia.
    destruct (InLeapYear y);
      repeat (destruct C as [-> | C];
              [vm_compute (DaysInMonth _ _) in Hd; vm_compute (DaysBeforeMonth _ _);
               repeat match goal with
                      | |- context [?a <? ?b] => destruct (Z.ltb_spec a b)
                      end; lia|]);
      subst m; vm_compute (DaysInMonth _ _) in Hd; vm_compute (DaysBeforeMonth _ _);
      repeat match goal with
             | |- context [?a <? ?b] => destruct (Z.ltb_spec a b)
             end; lia. }
  split; [exact Hy|]. split; [exact Hmo|].
  unfold DateFromTime. rewrite Hw, Hy, Hmo. lia.
Qed.

Lemma fields_valid (t : Z) :
  valid_ymd (YearFromTime t) (MonthFromTime t) (DateFromTime t).
Proof.
  split; [apply MonthFromTime_range|].
  pose proof (DayWithinYear_range t) as H.
  unfold DateFromTime, MonthFromTime.
  generalize dependent (DayWithinYear t). intros dwy H.
  destruct (InLeapYear (YearFromTime t));
  repeat match goal with
         | |- context [?a <? ?b] => destruct (Z.ltb_spec a b)
         end;
  vm_compute (DaysBeforeMonth _ _); vm_compute (DaysInMonth _ _); lia.
Qed.

Lemma next_ymd_valid (y m d : Z) :
  valid_ymd y m d ->
  let '(y', m', d') := next_ymd y m d in valid_ymd y' m' d'.
Proof.
  intros [Hm Hd]. unfold next_ymd.
  destruct (Z.ltb_spec d (DaysInMonth (InLeapYear y) m)).
  - split; lia.
  - destruct (Z.ltb_spec m 11).
    + split; [lia|]. unfold DaysInMonth.
      repeat match goal with
             | |- context [if ?b then _ else _] => destruct b
             end; lia.
    + split; [lia|]. unfold DaysInMonth. simpl. lia.
Qed.

Lemma DaysBeforeMonth_succ (leap : bool) (m : Z) :
  0 <= m <= 10 ->
  DaysBeforeMonth leap (m + 1)
  = DaysBeforeMonth leap m + DaysInMonth leap m.
Proof.
  intros Hm.
  assert (m = 0 \/ m = 1 \/ m = 2 \/ m = 3 \/ m = 4 \/ m = 5 \/ m = 6 \/
          m = 7 \/ m = 8 \/ m = 9 \/ m = 10) as C by lia.
  destruct leap;
    repeat (destruct C as [C | C]; [subst m; vm_compute; reflexivity|]);
    subst m; vm_compute; reflexivity.
Qed.

Lemma DaysBeforeMonth_december (leap : bool) :
  DaysBeforeMonth leap 11 + DaysInMonth leap 11
  = if leap then 366 else 365.
Proof. destruct leap; vm_compute; reflexivity. Qed.

Lemma MakeDay_next_ymd (y m d : Z) :
  valid_ymd y m d ->
  let '(y', m', d') := next_ymd y m d in
  MakeDay y' m' d' = MakeDay y m d + 1.
Proof.
  intros [Hm Hd]. unfold next_ymd.
  destruct (Z.ltb_spec d (DaysInMonth (InLeapYear y) m)) as [L | G].
  - unfold MakeDay. lia.
  - assert (d = DaysInMonth (InLeapYear y) m) as -> by lia.
    destruct (Z.ltb_spec m 11) as [L' | G'].
    + pose proof (DaysBeforeMonth_succ (InLeapYear y) m) as S.
      unfold MakeDay.
      rewrite (Z.div_small m 12), (Z.mod_small m 12) by lia.
      rewrite (Z.div_small (m + 1) 12), (Z.mod_small (m + 1) 12) by lia.
      rewrite !Z.add_0_r. lia.
    + assert (m = 11) as -> by lia.
      pose proof (DayFromYear_step y) as S.
      pose proof (DaysBeforeMonth_december (InLeapYear y)) as D.
      unfold MakeDay.
      rewrite (Z.div_small 0 12), (Z.mod_small 0 12) by lia.
      rewrite (Z.div_small 11 12), (Z.mod_small 11 12) by lia.
      rewrite !Z.add_0_r.
      destruct (InLeapYear y); lia.
Qed.

(** The fields of a day number decide the fields of the next one. *)
Lemma fields_of_next_day (t v : Z) :
  Day v = Day t + 1 ->
  (YearFromTime v, MonthFromTime v, DateFromTime v)
  = next_ymd (YearFromTime t) (MonthFromTime t) (DateFromTime t).
Proof.
  intros Hv.
  pose proof (fields_valid t) as V.
  pose proof (next_ymd_valid _ _ _ V) as V'.
  pose proof (MakeDay_next_ymd _ _ _ V) as M.
  destruct (next_ymd (YearFromTime t) (MonthFromTime t) (DateFromTime t))
    as [[y' m'] d'].
  pose proof (MakeDay_fields t 0) as E. rewrite !Z.add_0_r in E.
  rewrite E in M.
  destruct (fields_of_MakeDay y' m' d' v V') as (-> & -> & ->);
    [congruence | reflexivity].
Qed.

Lemma fields_of_same_day (t v : Z) :
  Day v = Day t ->
  YearFromTime v = YearFromTime t /\ MonthFromTime v = MonthFromTime t /\
  DateFromTime v = DateFromTime t.
Proof.
  intros Hv.
  assert (Hy : YearFromTime v = YearFromTime t).
  { unfold YearFromTime. rewrite Hv. reflexivity. }
  assert (Hw : DayWithinYear v = DayWithinYear t).
  { unfold DayWithinYear. rewrite Hv, Hy. reflexivity. }
  assert (Hm : MonthFromTime v = MonthFromTime t).
  { unfold MonthFromTime. rewrite Hw, Hy. reflexivity. }
  split; [exact Hy|]. split; [exact Hm|].
  unfold DateFromTime. rewrite Hw, Hy, Hm. reflexivity.
Qed.





(** X4. An Invalid Date object handed to the resolver is not rejected:
    with a known shift type the resolver returns a window whose start
    and end are both the Invalid Date, and with any other shift type it
    throws the unknown-service-type Error. *)
Theorem getEventTimes_invalid_Date (P : string -> option Z) (st : string) :
  (known_type st = true ->
   getEventTimes P (DDate None) st = inr (mkWindow None None)) /\
  (known_type st = false ->
   getEventTimes P (DDate None) st = inl (Error_UnknownServiceType st)).
Proof.
  unfold getEventTimes, getEventTimes_date, getEventTimes_window,
    known_type, Date_copy.
  destruct (String.eqb st "12H Jour"); [split; [reflexivity | discriminate]|].
  destruct (String.eqb st "12H Nuit"); [split; [reflexivity | discriminate]|].
  destruct (String.eqb st "24H"); split; try reflexivity; discriminate.
Qed.

Lemma getEventTimes_invalid_Date_witness :
  getEventTimes sample_parse (DDate None) "12H Nuit"
    = inr (mkWindow None None) /\
  getEventTimes sample_parse (DDate None) "Inconnu"
    = inl (Error_UnknownServiceType "Inconnu").
Proof.
  split.
  - apply (getEventTimes_invalid_Date sample_parse "12H Nuit"). reflexivity.
  - apply (getEventTimes_invalid_Date sample_parse "Inconnu"). reflexivity.
Defined.

(** ** Numerals of the French breakdown *)

Lemma digits_value_step (acc : Z) (c : ascii) (r : string) :
  is_digit c = true ->
  digits_value acc (String c r) = digits_value (10 * acc + (code c - 48)) r.
Proof. intros H. simpl. rewrite H. reflexivity. Qed.

Lemma digits_value_acc (u : Decimal.uint) (acc : positive) :
  digits_value (Zpos acc) (NilEmpty.string_of_uint u)
  = Some (Zpos (Pos.of_uint_acc u acc)).
Proof.
  revert acc. induction u; intros acc; cbn [NilEmpty.string_of_uint];
    [reflexivity | ..];
    rewrite digits_value_step by reflexivity;
    cbn [Pos.of_uint_acc]; rewrite <- IHu; f_equal;
    match goal with
    | |- context [code ?c] =>
        let v := eval vm_compute in (code c - 48) in
        change (code c - 48) with v
    end; lia.
Qed.

Lemma digits_value_of_uint (u : Decimal.uint) :
  digits_value 0 (NilEmpty.string_of_uint u) = Some (Z.of_N (Pos.of_uint u)).
Proof.
  induction u; cbn [NilEmpty.string_of_uint]; [reflexivity | ..];
    rewrite digits_value_step by reflexivity;
    match goal with
    | |- context [code ?c] =>
        let v := eval vm_compute in (10 * 0 + (code c - 48)) in
        change (10 * 0 + (code c - 48)) with v
    end;
    [exact IHu | ..]; rewrite digits_value_acc; reflexivity.
Qed.

Lemma to_uint_numeral (p : positive) :
  exists c r, NilEmpty.string_of_uint (Pos.to_uint p) = String c r /\
              is_digit c = true.
Proof.
  pose proof (Unsigned.of_to p) as H.
  destruct (Pos.to_uint p) as [|u|u|u|u|u|u|u|u|u|u];
    [discriminate | ..]; cbn [NilEmpty.string_of_uint];
    do 2 eexists; split; reflexivity.
Qed.

Lemma Number_digit_first (c : ascii) (r : string) :
  is_digit c = true -> Number (Some (String c r)) = digits_value 0 (String c r).
Proof.
  intros H. unfold Number.
  destruct (Ascii.eqb_spec c "-") as [-> | N]; [discriminate|].
  destruct c as [[] [] [] [] [] [] [] []]; try reflexivity;
    destruct r; try reflexivity; exfalso; apply N; reflexivity.
Qed.

(** [Number] reads back every numeral [Z_to_string] prints. *)
Lemma Number_Z_to_string (n : Z) : Number (Some (Z_to_string n)) = Some n.
Proof.
  unfold Z_to_string. destruct n as [|p|p]; [reflexivity | |].
  - cbn [Z.to_int NilZero.string_of_int NilZero.string_of_uint].
    destruct (to_uint_numeral p) as (c & r & E & Hc).
    assert (NilZero.string_of_uint (Pos.to_uint p)
            = NilEmpty.string_of_uint (Pos.to_uint p)) as ->.
    { unfold NilZero.string_of_uint.
      destruct (Pos.to_uint p); [discriminate E|..]; reflexivity. }
    rewrite E, (Number_digit_first c r Hc), <- E, digits_value_of_uint.
    rewrite Unsigned.of_to. reflexivity.
  - cbn [Z.to_int NilZero.string_of_int].
    destruct (to_uint_numeral p) as (c & r & E & Hc).
    assert (NilZero.string_of_uint (Pos.to_uint p)
            = NilEmpty.string_of_uint (Pos.to_uint p)) as ->.
    { unfold NilZero.string_of_uint.
      destruct (Pos.to_uint p); [discriminate E|..]; reflexivity. }
    rewrite E. unfold Number. rewrite <- E, digits_value_of_uint.
    rewrite Unsigned.of_to. reflexivity.
Qed.

(** ** The string branch of the resolver *)





(** ** CalendarEventBuilder and export *)

Lemma getEventTimes_window_label (t : Z) (st : ServiceType) :
  getEventTimes_window (Some t) (label st)
  = inr (mkWindow (on_day t 0 (start_hour st) 30)
                  (on_day t (if ends_next_day st then 1 else 0)
                          (end_hour st) 30)).
Proof.
  destruct (getEventTimes_window_valid t) as (HJ & HN & H24).
  destruct st; simpl label; [rewrite HJ | rewrite HN | rewrite H24];
    reflexivity.
Qed.

Lemma tuple_of_on_day (t k h m : Z) (y mo d : Z) :
  0 <= h < 24 -> 0 <= m < 60 ->
  (forall v, Day v = Day t + k ->
     YearFromTime v = y /\ MonthFromTime v = mo /\ DateFromTime v = d) ->
  tuple_of (on_day t k h m) = (Some y, Some (mo + 1), Some d, Some h, Some m).
Proof.
  intros Hh Hm F.
  destruct (on_day_reads_as t k h m Hh Hm) as (v & Ev & Dv & Hv & Mv).
  rewrite Ev. destruct (F v Dv) as (Hy & Hmo & Hd).
  unfold tuple_of, getFullYear, getMonth, getDate, getHours, getMinutes,
    plus1, option_map.
  rewrite Hy, Hmo, Hd, Hv, Mv. reflexivity.
Qed.



Lemma downloadICal_inr (P : string -> option Z) (events : list EventData)
    (l : list ICalEvent) :
  downloadICal P events = inr l <->
  Forall2 (fun e i => createEvent P e = inr i) events l.
Proof.
  revert l. induction events as [|e events IH]; intros l; simpl.
  - split.
    + intros [= <-]. constructor.
    + intros H. inversion H. reflexivity.
  - destruct (createEvent P e) as [x | i] eqn:E.
    + split; [discriminate|]. intros H. inversion H; subst. congruence.
    + destruct (downloadICal P events) as [x | l'] eqn:D.
      * split; [discriminate|]. intros H. inversion H; subst.
        match goal with
        | H' : Forall2 _ events _ |- _ => apply IH in H'; discriminate
        end.
      * split.
        -- intros [= <-]. constructor; [exact E | apply IH; reflexivity].
        -- intros H. inversion H; subst.
           match goal with
           | H' : Forall2 _ events _ |- _ => apply IH in H'
           end.
           congruence.
Qed.

Lemma downloadICal_inl (P : string -> option Z) (events : list EventData)
    (x : Exn) :
  downloadICal P events = inl x <->
  exists pre e post, events = (pre ++ e :: post)%list /\
    createEvent P e = inl x /\
    Forall (fun e' => exists i, createEvent P e' = inr i) pre.
Proof.
  induction events as [|e events IH]; simpl.
  - split; [discriminate|]. intros (pre & e & post & H & _).
    destruct pre; discriminate.
  - destruct (createEvent P e) as [x' | i] eqn:E.
    + split.
      * intros [= ->]. exists [], e, events. auto.
      * intros (pre & e' & post & H & He' & Hpre).
        destruct pre as [|p pre]; simpl in H; injection H as <- _.
        -- congruence.
        -- inversion Hpre as [|? ? [i Hi] _]; subst. congruence.
    + destruct (downloadICal P events) as [x' | l'] eqn:D.
      * split.
        -- intros [= ->].
           destruct (proj1 IH eq_refl) as (pre & e' & post & -> & He' & Hpre).
           exists (e :: pre), e', post. repeat split; eauto.
        -- intros (pre & e' & post & H & He' & Hpre).
           destruct pre as [|p pre]; simpl in H; injection H as <- ->.
           ++ congruence.
           ++ inversion Hpre; subst. apply IH. eauto 6.
      * split; [discriminate|].
        intros (pre & e' & post & H & He' & Hpre).
        destruct pre as [|p pre]; simpl in H; injection H as <- ->.
        -- congruence.
        -- inversion Hpre; subst.
           assert (inr l' = inl x) as K; [|discriminate K].
           apply IH. eauto 6.
Qed.

(** X8. The export is all or nothing: [downloadICal] hands a list to the
    calendar library exactly when [createEvent] succeeds on every event,
    and the list then has one calendar event per event, in order; when
    it fails, it fails with the exception of the first event that
    cannot be built, whatever the events after it. *)
Theorem downloadICal_all_or_nothing
    (P : string -> option Z) (events : list EventData) :
  (forall l, downloadICal P events = inr l <->
     Forall2 (fun e i => createEvent P e = inr i) events l) /\
  (forall l, downloadICal P events = inr l -> length l = length events) /\
  (forall x, downloadICal P events = inl x <->
     exists pre e post, events = (pre ++ e :: post)%list /\
       createEvent P e = inl x /\
       Forall (fun e' => exists i, createEvent P e' = inr i) pre).
Proof.
  split; [|split].
  - intros l. apply downloadICal_inr.
  - intros l H. apply downloadICal_inr in H.
    symmetry. apply (Forall2_length H).
  - intros x. apply downloadICal_inl.
Qed.

Lemma downloadICal_all_or_nothing_witness :
  downloadICal sample_parse
    [mkEventData "15 mars 2025" "A" "24H";
     mkEventData "10 april 2025" "A" "24H";
     mkEventData "16 mars 2025" "A" "24H"]
  = inl (Error_InvalidDateString "10 april 2025").
Proof.
  apply (downloadICal_all_or_nothing sample_parse).
  exists [mkEventData "15 mars 2025" "A" "24H"],
         (mkEventData "10 april 2025" "A" "24H"),
         [mkEventData "16 mars 2025" "A" "24H"].
  split; [reflexivity|]. split; [vm_compute; reflexivity|].
  constructor; [|constructor]. eexists. vm_compute. reflexivity.
Defined.

Lemma getEventTimes_known_failure
    (P : string -> option Z) (s st : string) (x : Exn) :
  known_type st = true ->
  getEventTimes P (DString s) st = inl x -> date_failure s x.
Proof.
  intros K. unfold getEventTimes, date_failure.
  destruct (getEventTimes_date_cases P s)
    as [[_ E] | (t & d & m & y & _ & _ &
                 [[_ E] | (d' & m' & y' & _ & _ & _ & E)])]; rewrite E.
  - intros [= <-]. auto.
  - intros [= <-]. auto.
  - destruct (getEventTimes_window_cases (Date_ymd y' m' d') st)
      as [(_ & w & ->) | (K' & _)]; [discriminate | congruence].
Qed.

Lemma createEvent_failure (P : string -> option Z) (e : EventData) (x : Exn) :
  createEvent P e = inl x ->
  getEventTimes P (DString (date e)) (serviceType e) = inl x.
Proof.
  unfold createEvent.
  destruct (getEventTimes P (DString (date e)) (serviceType e));
    [congruence | discriminate].
Qed.

(** X9. With a non-empty selected name, exporting the filtered events
    can only fail on a date: if [downloadICal] throws on what
    [generateICal] builds from the events the filter kept, the exception
    is a date failure on the date string of one of those events, never
    the unknown-service-type Error. *)
Theorem export_of_filtered_fails_only_on_dates
    (toUpperCase trim : string -> string) (P : string -> option Z)
    (s : string) (allEvents : list SheetEvent) (x : Exn) :
  s <> EmptyString ->
  downloadICal P
    (generateICal toUpperCase trim (Some s)
       (filterEvents toUpperCase trim (Some s) allEvents)) = inl x ->
  exists ev, In ev allEvents /\ date_failure (ev_date ev) x.
Proof.
  intros Hs H. apply downloadICal_inl in H.
  destruct H as (pre & e & post & Hl & He & _).
  assert (Hin : In e (generateICal toUpperCase trim (Some s)
                        (filterEvents toUpperCase trim (Some s) allEvents))).
  { rewrite Hl. apply in_or_app. right. left. reflexivity. }
  unfold generateICal in Hin. apply in_map_iff in Hin.
  destruct Hin as (ev & <- & Hev).
  destruct (lookup_of_filtered toUpperCase trim s allEvents ev Hs Hev)
    as [st Hst].
  apply createEvent_failure in He. cbn [date serviceType] in He.
  rewrite Hst in He. cbn [option_map] in He. rewrite str_or_label in He.
  exists ev. split.
  - apply (filterEvents_In toUpperCase trim s allEvents ev Hs) in Hev.
    tauto.
  - apply (getEventTimes_known_failure P _ (label st));
      [apply known_type_label | exact He].
Qed.

Lemma export_of_filtered_fails_only_on_dates_witness :
  exists ev,
    In ev [mkSheetEvent "10 april 2025" "A"
             [Some (mkExtraCell "Dupont" None None TwentyFour)]] /\
    date_failure (ev_date ev) (Error_InvalidDateString "10 april 2025").
Proof.
  apply (export_of_filtered_fails_only_on_dates
           ascii_toUpperCase ascii_trim sample_parse "dupont").
  - discriminate.
  - reflexivity.
Defined.

(** X10. With no selected name, [generateICal] labels every event
    'Inconnu', and the export of a non-empty list always throws: nothing
    is handed to the calendar library. *)
Theorem export_without_name_fails
    (toUpperCase trim : string -> string) (P : string -> option Z)
    (events : list SheetEvent) :
  (forall e, In e (generateICal toUpperCase trim None events) ->
             serviceType e = "Inconnu") /\
  (events <> [] ->
   exists x, downloadICal P (generateICal toUpperCase trim None events)
             = inl x).
Proof.
  assert (L : forall ev,
            getServiceTypeForSelectedName toUpperCase trim None ev = None).
  { intros ev. unfold getServiceTypeForSelectedName.
    rewrite js_find_unselected. reflexivity. }
  split.
  - intros e Hin. unfold generateICal in Hin. apply in_map_iff in Hin.
    destruct Hin as (ev & <- & _). cbn [serviceType]. rewrite L. reflexivity.
  - intros Hne. destruct events as [|ev events]; [congruence|].
    cbn [generateICal map downloadICal]. rewrite L. cbn [option_map str_or].
    unfold createEvent, getEventTimes. cbn [date serviceType].
    destruct (getEventTimes_date P (DString (ev_date ev))) as [x | d].
    + eauto.
    + destruct (getEventTimes_window_cases d "Inconnu")
        as [(K & _) | (_ & ->)]; [discriminate K | eauto].
Qed.

Lemma export_without_name_fails_witness :
  exists x,
    downloadICal sample_parse
      (generateICal ascii_toUpperCase ascii_trim None
         [mkSheetEvent "15 mars 2025" "A"
            [Some (mkExtraCell "Dupont" None None TwentyFour)]])
    = inl x.
Proof.
  apply (export_without_name_fails ascii_toUpperCase ascii_trim sample_parse).
  discriminate.
Defined.

(** ** Filter, lookup and extraction *)

(** X11. The selected name only counts through its upper-cased, trimmed
    form: two non-empty names with the same such form select the same
    events and give every event the same shift type. *)
Theorem selection_up_to_case_and_spaces
    (toUpperCase trim : string -> string) (s1 s2 : string)
    (allEvents : list SheetEvent) :
  s1 <> EmptyString -> s2 <> EmptyString ->
  normalize toUpperCase trim s1 = normalize toUpperCase trim s2 ->
  filterEvents toUpperCase trim (Some s1) allEvents
    = filterEvents toUpperCase trim (Some s2) allEvents /\
  forall ev,
    getServiceTypeForSelectedName toUpperCase trim (Some s1) ev
    = getServiceTypeForSelectedName toUpperCase trim (Some s2) ev.
Proof.
  intros H1 H2 Hn. split.
  - unfold filterEvents.
    apply nonempty_true in H1. apply nonempty_true in H2.
    rewrite H1, H2. unfold cell_matches. rewrite Hn. reflexivity.
  - intros ev. unfold getServiceTypeForSelectedName.
    cbn [option_map]. rewrite Hn. reflexivity.
Qed.

Lemma selection_up_to_case_and_spaces_witness :
  filterEvents ascii_toUpperCase ascii_trim (Some "dupont ")
    [mkSheetEvent "15 mars 2025" "A"
       [Some (mkExtraCell "Dupont" None None TwentyFour)]]
  = filterEvents ascii_toUpperCase ascii_trim (Some " DUPONT")
      [mkSheetEvent "15 mars 2025" "A"
         [Some (mkExtraCell "Dupont" None None TwentyFour)]].
Proof.
  apply (selection_up_to_case_and_spaces ascii_toUpperCase ascii_trim
           "dupont " " DUPONT");
    [discriminate | discriminate | reflexivity].
Defined.

Lemma js_index_In {A : Type} (a : list (option A)) (x : A) :
  In (Some x) a <-> exists i, js_index a i = Some x.
Proof.
  unfold js_index. split.
  - intros H. apply In_nth_error in H. destruct H as [i Hi].
    exists i. rewrite Hi. reflexivity.
  - intros [i Hi]. destruct (nth_error a i) as [[y|]|] eqn:E;
      try discriminate.
    injection Hi as ->. apply (nth_error_In _ _ E).
Qed.

Lemma parseSheet_In (ws : Worksheet) (ev : SheetEvent) :
  In ev (parseSheet ws) <->
  exists r, In r (rows ws) /\ parseSheet_row r = Some ev.
Proof.
  unfold parseSheet, eachRow. rewrite parseSheet_fold. simpl.
  rewrite flat_map_events_filter, in_flat_map.
  split; intros (r & Hr & H); exists r; (split; [exact Hr|]);
    unfold events_of_row in *.
  - destruct (parseSheet_row r) as [ev'|]; [|destruct H].
    destruct H as [-> | []]. reflexivity.
  - rewrite H. left. reflexivity.
Qed.

(** X12. Every event [parseSheet] returns has a non-empty date and a
    non-empty team, and each of its extra cells carries the color and the
    theme read through [|| null] (never the empty string, never 0)
    together with the shift type that [determineServiceType] gives to
    that color and theme; there are at most as many events as rows. *)
Theorem parseSheet_events_well_formed (ws : Worksheet) :
  (forall ev, In ev (parseSheet ws) ->
     ev_date ev <> EmptyString /\ ev_equipe ev <> EmptyString /\
     forall c, In (Some c) (extraData ev) ->
       cell_serviceType c
         = determineServiceType (mkCellData (cell_color c)
                                            (cell_color_theme c)) /\
       cell_color c <> Some EmptyString /\
       cell_color_theme c <> Some 0) /\
  (length (parseSheet ws) <= length (rows ws))%nat.
Proof.
  split.
  - intros ev Hin. apply parseSheet_In in Hin. destruct Hin as (r & _ & Hr).
    destruct (parseSheet_row_fields r ev Hr) as (_ & _ & Hd & He & Hx).
    split; [exact Hd|]. split; [exact He|].
    intros c Hc. apply js_index_In in Hc. destruct Hc as [i Hi].
    rewrite Hx in Hi.
    destruct (getCell_value r (i + 4)) as [v|]; [|discriminate].
    injection Hi as <-. unfold extraCell_at. cbn.
    split; [reflexivity|]. split.
    + destruct (argb (fill r (i + 4))) as [[|a s]|]; discriminate.
    + destruct (theme (fill r (i + 4))) as [[|p|p]|]; discriminate.
  - unfold parseSheet, eachRow. rewrite parseSheet_fold. simpl.
    rewrite flat_map_events_filter.
    induction (rows ws) as [|r l IH]; simpl; [lia|].
    rewrite length_app. unfold events_of_row at 1.
    destruct (parseSheet_row r); simpl; lia.
Qed.

(** X13. Extraction and filter agree: in a row with a non-empty date and
    team, the display string of any truthy cell from the fourth column
    on, when not empty, selects the event of that row, and the lookup
    then finds a shift type for it. *)
Theorem cell_string_selects_its_row
    (toUpperCase trim : string -> string) (ws : Worksheet)
    (r : Row) (c : nat) (v : CellValue) :
  In r (rows ws) -> (4 <= c)%nat ->
  getCell_value r c = Some v -> truthy v = true ->
  toString v <> EmptyString ->
  column_string r 2 <> EmptyString -> column_string r 3 <> EmptyString ->
  exists ev,
    parseSheet_row r = Some ev /\
    In ev (filterEvents toUpperCase trim (Some (toString v)) (parseSheet ws))
    /\ exists st,
         getServiceTypeForSelectedName toUpperCase trim
           (Some (toString v)) ev = Some st.
Proof.
  intros Hr Hc Hv Ht Hs Hd He.
  destruct (proj2 (parseSheet_row_qualifies r) (conj Hd He)) as [ev Hev].
  exists ev. split; [exact Hev|].
  assert (Hin : In ev (filterEvents toUpperCase trim (Some (toString v))
                         (parseSheet ws))).
  { apply (filterEvents_In toUpperCase trim _ _ _ Hs). split.
    - apply parseSheet_In. eauto.
    - destruct (parseSheet_row_fields r ev Hev) as (_ & _ & _ & _ & Hx).
      specialize (Hx (c - 4)%nat).
      replace (c - 4 + 4)%nat with c in Hx by lia.
      rewrite Hv in Hx. cbn [option_map] in Hx.
      eexists. split; [apply js_index_In; eauto|].
      unfold extraCell_at, coerce. rewrite Ht. cbn [value]. auto. }
  split; [exact Hin|].
  apply (lookup_of_filtered toUpperCase trim _ (parseSheet ws) ev Hs Hin).
Qed.

Lemma cell_string_selects_its_row_witness :
  exists ev,
    parseSheet_row sample_row = Some ev /\
    In ev (filterEvents ascii_toUpperCase ascii_trim (Some "Durand")
             (parseSheet (mkWorksheet [sample_header; sample_row] 6))).
Proof.
  destruct (cell_string_selects_its_row ascii_toUpperCase ascii_trim
              (mkWorksheet [sample_header; sample_row] 6)
              sample_row 6 (VString "Durand"))
    as (ev & H1 & H2 & _);
    try reflexivity; try discriminate.
  - right. left. reflexivity.
  - repeat constructor.
  - exists ev. auto.
Defined.

(** ** Sheets offered by [handleFile] *)

Lemma four_digits_at_spec (s y rest : string) :
  four_digits_at s = Some (y, rest) <-> s = y ++ rest /\ is_year y = true.
Proof.
  split.
  - unfold four_digits_at.
    destruct s as [|a [|b [|c [|d r]]]]; try discriminate.
    destruct (is_digit a && is_digit b && is_digit c && is_digit d) eqn:E;
      [|discriminate].
    intros [= <- <-]. split; [reflexivity | exact E].
  - intros [-> Hy].
    destruct y as [|a [|b [|c [|d [|e y]]]]]; try discriminate Hy.
    simpl in *. rewrite Hy. reflexivity.
Qed.

Lemma is_year_digits_value (y : string) :
  is_year y = true -> exists n, digits_value 0 y = Some n /\ 0 <= n <= 9999.
Proof.
  destruct y as [|a [|b [|c [|d [|e y]]]]]; try discriminate.
  intros H. cbn [is_year] in H.
  apply andb_true_iff in H. destruct H as [H Hd].
  apply andb_true_iff in H. destruct H as [H Hc].
  apply andb_true_iff in H. destruct H as [Ha Hb].
  rewrite !digits_value_step by assumption. cbn [digits_value].
  eexists. split; [reflexivity|].
  unfold is_digit in *.
  apply andb_true_iff in Ha, Hb, Hc, Hd. lia.
Qed.

(** The match found is a standalone group, and the leftmost one. *)
Lemma year_match_from_Some (s : string) :
  forall pw y, year_match_from pw s = Some y ->
  exists pre post,
    s = pre ++ y ++ post /\ is_year y = true /\
    last_word pw pre = false /\ starts_nonword post = true /\
    forall pre' y' post',
      s = pre' ++ y' ++ post' -> is_year y' = true ->
      last_word pw pre' = false -> starts_nonword post' = true ->
      (String.length pre <= String.length pre')%nat.
Proof.
  induction s as [|c r IH]; intros pw y H; [discriminate|].
  cbn [year_match_from] in H.
  assert (Continue :
    year_match_from (is_word c) r = Some y ->
    (forall y' post', String c r = y' ++ post' -> is_year y' = true ->
       pw = false -> starts_nonword post' = true -> False) ->
    exists pre post,
      String c r = pre ++ y ++ post /\ is_year y = true /\
      last_word pw pre = false /\ starts_nonword post = true /\
      forall pre' y' post',
        String c r = pre' ++ y' ++ post' -> is_year y' = true ->
        last_word pw pre' = false -> starts_nonword post' = true ->
        (String.length pre <= String.length pre')%nat).
  { intros Hr Hno.
    destruct (IH _ _ Hr) as (pre & post & E & Hy & Hl & Hp & Hleft).
    subst r. exists (String c pre), post.
    split; [reflexivity|]. split; [exact Hy|]. split; [exact Hl|].
    split; [exact Hp|].
    intros pre' y' post' E' Hy' Hl' Hp'.
    destruct pre' as [|c' pre'].
    - exfalso. apply (Hno y' post'); auto.
    - cbn [append] in E'. injection E' as <- E'.
      cbn [String.length]. apply le_n_S.
      apply (Hleft pre' y' post'); auto. }
  destruct pw.
  - apply Continue; [exact H|]. intros; discriminate.
  - destruct (four_digits_at (String c r)) as [[y0 rest]|] eqn:F.
    + destruct (starts_nonword rest) eqn:B.
      * injection H as <-. apply four_digits_at_spec in F.
        destruct F as [E Hy].
        exists EmptyString, rest. cbn [append].
        repeat split; auto. intros. cbn [String.length]. lia.
      * apply Continue; [exact H|].
        intros y' post' E' Hy' _ Hp'.
        assert (four_digits_at (String c r) = Some (y', post')) as F'
          by (apply four_digits_at_spec; auto).
        congruence.
    + apply Continue; [exact H|].
      intros y' post' E' Hy' _ Hp'.
      assert (four_digits_at (String c r) = Some (y', post')) as F'
        by (apply four_digits_at_spec; auto).
      congruence.
Qed.

(** No match means no standalone group anywhere. *)
Lemma year_match_from_None (s : string) :
  forall pw, year_match_from pw s = None ->
  forall pre y post,
    s = pre ++ y ++ post -> is_year y = true ->
    last_word pw pre = false -> starts_nonword post = true -> False.
Proof.
  induction s as [|c r IH]; intros pw H pre y post E Hy Hl Hp.
  - destruct pre; [|discriminate]. cbn [append] in E.
    destruct y as [|a y]; discriminate.
  - cbn [year_match_from] in H.
    destruct pre as [|c' pre].
    + cbn [append last_word] in E, Hl. subst pw.
      assert (four_digits_at (String c r) = Some (y, post)) as F
        by (apply four_digits_at_spec; auto).
      rewrite F, Hp in H. discriminate.
    + cbn [append] in E. injection E as <- E. cbn [last_word] in Hl.
      assert (year_match_from (is_word c) r = None) as Hr.
      { destruct (if pw then None else four_digits_at (String c r))
          as [[y0 rest]|]; [|exact H].
        destruct (starts_nonword rest); [discriminate | exact H]. }
      apply (IH _ Hr pre y post); auto.
Qed.

(** X14. [handleFile] offers, in their order, the sheets whose name has a
    group of exactly four digits standing alone (no letter, digit or
    underscore just before or after) and whose leftmost such group,
    read as a number, is at least the current year; a name without such
    a group is never offered, and later groups are not looked at. *)
Theorem handleFile_sheets_characterised
    (currentYear : Z) (sheetNames : list string) :
  (exists keep, handleFile_sheets currentYear sheetNames
                = filter keep sheetNames /\
     forall name, keep name = true <->
       exists pre y post n,
         name = pre ++ y ++ post /\ standalone_year pre y post /\
         (forall pre' y' post',
            name = pre' ++ y' ++ post' -> standalone_year pre' y' post' ->
            (String.length pre <= String.length pre')%nat) /\
         digits_value 0 y = Some n /\ currentYear <= n) /\
  (forall name,
     (forall pre y post, name = pre ++ y ++ post ->
                         ~ standalone_year pre y post) ->
     ~ In name (handleFile_sheets currentYear sheetNames)).
Proof.
  split.
  - exists (sheet_kept currentYear). split; [reflexivity|].
    intros name. unfold sheet_kept, year_match. split.
    + destruct (year_match_from false name) as [y|] eqn:M; [|discriminate].
      destruct (year_match_from_Some name false y M)
        as (pre & post & E & Hy & Hl & Hp & Hleft).
      destruct (digits_value 0 y) as [n|] eqn:D; [|discriminate].
      intros K. apply Z.leb_le in K.
      exists pre, y, post, n. repeat split; auto.
      intros pre' y' post' E' (Hy' & Hl' & Hp').
      apply (Hleft pre' y' post'); auto.
    + intros (pre & y & post & n & E & (Hy & Hl & Hp) & Hleft & D & K).
      destruct (year_match_from false name) as [y0|] eqn:M.
      * destruct (year_match_from_Some name false y0 M)
          as (pre0 & post0 & E0 & Hy0 & Hl0 & Hp0 & Hleft0).
        assert (L1 : (String.length pre0 <= String.length pre)%nat)
          by (apply (Hleft0 pre y post); auto).
        assert (L2 : (String.length pre <= String.length pre0)%nat)
          by (apply (Hleft pre0 y0 post0); unfold standalone_year; auto).
        assert (y0 = y) as ->.
        { clear - E E0 L1 L2 Hy Hy0. subst name.
          revert pre0 E0 L1 L2.
          induction pre as [|c pre IH]; intros pre0 E0 L1 L2.
          - destruct pre0; [|cbn in L1; lia]. cbn [append] in E0.
            destruct y as [|a [|b [|c [|d [|e y]]]]]; try discriminate Hy.
            destruct y0 as [|a0 [|b0 [|c0 [|d0 [|e0 y0]]]]];
              try discriminate Hy0.
            cbn [append] in E0. congruence.
          - destruct pre0 as [|c0 pre0]; [cbn in L2; lia|].
            cbn [append] in E0. injection E0 as _ E0.
            apply (IH pre0 E0); cbn [String.length] in *; lia. }
        rewrite D. apply Z.leb_le. exact K.
      * exfalso.
        apply (year_match_from_None name false M pre y post); auto.
  - intros name Hno Hin. unfold handleFile_sheets in Hin.
    apply filter_In in Hin. destruct Hin as [_ K].
    unfold sheet_kept, year_match in K.
    destruct (year_match_from false name) as [y|] eqn:M; [|discriminate].
    destruct (year_match_from_Some name false y M)
      as (pre & post & E & Hy & Hl & Hp & _).
    apply (Hno pre y post E). unfold standalone_year. auto.
Qed.

Lemma handleFile_sheets_characterised_witness :
  ~ In "Gardes2025"
       (handleFile_sheets 2025 ["Planning 2024"; "Gardes2025"; "Gardes 2026"]).
Proof.
  apply (handleFile_sheets_characterised 2025
           ["Planning 2024"; "Gardes2025"; "Gardes 2026"]).
  intros pre y post E (Hy & Hl & Hp).
  assert (year_match_from false "Gardes2025" = None) as M by reflexivity.
  apply (year_match_from_None _ false M pre y post); auto.
Defined.

(** ** Headers of the name index *)

Lemma no_element_nil {A : Type} (l : list A) :
  (forall x, ~ In x l) -> l = [].
Proof.
  destruct l as [|a l]; [reflexivity|]. intros H.
  exfalso. apply (H a). left. reflexivity.
Qed.

(** X15. The name index is empty when the header row has no kept header
    from the fourth column on.  The header row is the first row unless
    that row has no value at all: a first row holding anything, a title
    say, but no header from the fourth column on, empties the name
    index whatever the second row holds. *)
Theorem extractUniqueNames_without_headers
    (trim : string -> string) (localeCompare : string -> string -> Z)
    (ws : Worksheet) :
  ((forall c, (4 <= c <= columnCount ws)%nat ->
      header_kept (getCell_value (headerRow ws) c) = false) ->
   extractUniqueNames trim localeCompare ws = []) /\
  (isRowEmpty (getRow ws 1) = false ->
   (forall c, (4 <= c)%nat -> getCell_value (getRow ws 1) c = None) ->
   extractUniqueNames trim localeCompare ws = []).
Proof.
  assert (Main : (forall c, (4 <= c <= columnCount ws)%nat ->
                    header_kept (getCell_value (headerRow ws) c) = false) ->
                 extractUniqueNames trim localeCompare ws = []).
  { intros H. unfold extractUniqueNames.
    assert (uniqueNames trim ws = []) as ->; [|reflexivity].
    apply no_element_nil. intros x Hx. unfold uniqueNames in Hx.
    apply columns_fold_In in Hx.
    destruct Hx as [[] | (c & r & Hc & Hk & _)].
    apply nameColumns_In in Hc. rewrite (H c Hc) in Hk. discriminate. }
  split; [exact Main|].
  intros Hne Hnone. apply Main. intros c Hc.
  unfold headerRow. rewrite Hne. rewrite Hnone by lia. reflexivity.
Qed.

Lemma extractUniqueNames_without_headers_witness :
  extractUniqueNames ascii_trim byte_compare sample_titled_sheet = [].
Proof.
  apply (extractUniqueNames_without_headers ascii_trim byte_compare
           sample_titled_sheet).
  - reflexivity.
  - intros c Hc. unfold getCell_value, getRow. cbn.
    destruct c as [|[|[|[|c]]]]; try lia. cbn.
    destruct c; reflexivity.
Defined.

(** ** Display of the dates *)

(** X16. [formatDisplayDate] throws exactly when the host cannot parse
    the date string; so every event for which the resolver returns a
    window, or throws its own invalid-date or unknown-service-type
    Error, has a date that can be displayed. *)
Theorem formatDisplayDate_fails_on_unparsed
    (P : string -> option Z) (s st : string) :
  (formatDisplayDate P s = inl RangeError_InvalidTimeValue <-> P s = None) /\
  ((exists str, formatDisplayDate P s = inr str) <->
   getEventTimes P (DString s) st <> inl RangeError_InvalidTimeValue).
Proof.
  unfold formatDisplayDate, getEventTimes.
  destruct (getEventTimes_date_cases P s)
    as [[Hs E] | (t & d & m & y & Hs & _ &
                  [[_ E] | (d' & m' & y' & _ & _ & _ & E)])];
    rewrite E, Hs.
  - split; [tauto|]. split.
    + intros [str H]. discriminate.
    + intros H. congruence.
  - split; [split; discriminate|]. split; [discriminate | eauto].
  - split; [split; discriminate|]. split; [|eauto].
    intros _.
    destruct (getEventTimes_window_cases (Date_ymd y' m' d') st)
      as [(_ & w & ->) | (_ & ->)]; discriminate.
Qed.

Lemma formatDisplayDate_fails_on_unparsed_witness :
  (exists str, formatDisplayDate sample_parse "15 mars 2025" = inr str) /\
  formatDisplayDate sample_parse "15 mars 2025" = inr "samedi 15 mars 2025".
Proof.
  split; [|reflexivity].
  apply (formatDisplayDate_fails_on_unparsed sample_parse "15 mars 2025" "24H").
  vm_compute. discriminate.
Defined.
